(** * RepoGuardian: the reminder script [remind-reviewers.js]

    A shallow embedding of the script and the properties of its
    repository resolution, its two reminder scans and its orchestrator.

    Conventions of the embedding.
    - The remote platform (the Octokit client) and the clock are an
      arbitrary deterministic machine over a world type [W]: every call
      takes the world and returns a response and the next world.
    - An [await]ed call that rejects throws; [try]/[catch] is [tryCatch].
    - Every remote call (with its arguments and its response) and every
      [log] line is recorded, in program order, in the list of events a
      computation returns.  The ISO time stamp [log] puts in front of a
      line is left out of the recorded line.
    - [while (true)] loops take a fuel: the number of iterations they may
      run before the computation is cut off as [OutOfFuel].
    - JavaScript numbers: time stamps are integers (milliseconds), the hour
      threshold and the waited hours are exact rationals; rounding of
      doubles and [NaN] are not modelled.  The two conversions of such a
      number to text are taken as parameters ([NumFmt]). *)

From Stdlib Require Import ZArith QArith List String Ascii Bool Lia DecimalString.
Import ListNotations.

Open Scope string_scope.
Open Scope list_scope.
Open Scope Z_scope.

(** ** JavaScript primitives the script uses *)

Module Js.

(** [s.split(sep)] for a one-character separator: never the empty list. *)
Fixpoint split (sep : ascii) (s : string) : list string :=
  match s with
  | EmptyString => [EmptyString]
  | String c rest =>
      if Ascii.eqb c sep then EmptyString :: split sep rest
      else match split sep rest with
           | [] => [String c EmptyString]
           | h :: t => String c h :: t
           end
  end.

(** White space of [trim], restricted to the one-byte characters:
    TAB, LF, VT, FF, CR and SPACE. *)
Definition isWhite (c : ascii) : bool :=
  let n := nat_of_ascii c in
  ((9 <=? n)%nat && (n <=? 13)%nat) || (n =? 32)%nat.

Fixpoint trimStart (s : string) : string :=
  match s with
  | EmptyString => EmptyString
  | String c rest => if isWhite c then trimStart rest else s
  end.

Fixpoint trimEnd (s : string) : string :=
  match s with
  | EmptyString => EmptyString
  | String c rest =>
      match trimEnd rest with
      | EmptyString => if isWhite c then EmptyString else String c EmptyString
      | r => String c r
      end
  end.

Definition trim (s : string) : string := trimEnd (trimStart s).

(** Truthiness of a string: [Boolean(s)], [!s]. *)
Definition truthy (s : string) : bool :=
  match s with EmptyString => false | _ => true end.

(** An integer inside a template literal. *)
Definition showZ (z : Z) : string := NilZero.string_of_int (Z.to_int z).


End Js.

(** ** Data model *)

(** [{ owner, name }], as the resolver produces it. *)
Record RepoRef := mkRepoRef { owner : string; name : string }.

(** An entry of a repository listing: [r.owner.login], [r.name],
    [r.archived], [r.fork]. *)
Record RepoInfo := mkRepoInfo {
  owner_login : string;
  repo_name : string;
  archived : bool;
  fork : bool
}.

(** A review: [r.user] is [null] or an object with a [login]. *)
Record Review := mkReview { user : option string }.

(** A pull request as the scans read it.  Time stamps are the
    milliseconds [new Date(...)] yields; [requested_reviewers] holds the
    reviewers' logins (a missing array is the empty list); [merged_at] is
    only tested for truthiness. *)
Record PullRequest := mkPullRequest {
  number : Z;
  created_at : Z;
  updated_at : Z;
  merged_at : option Z;
  head_ref : string;
  user_login : string;
  requested_reviewers : list string
}.

(** The error a rejected remote call carries: [err.status], [err.message]. *)
Record RequestError := mkRequestError {
  status : option Z;
  message : string
}.

Inductive Resp (A : Type) : Type :=
| Ok (a : A)
| Err (e : RequestError).
Arguments Ok {A} a.
Arguments Err {A} e.

(** What can be thrown: an [Error] the script itself creates, or the
    rejection of a remote call. *)
Inductive Exn :=
| ScriptError (msg : string)
| RemoteError (e : RequestError).

(** [e.status || e.message], as text. *)
Definition statusOrMessage (e : Exn) : string :=
  match e with
  | ScriptError msg => msg
  | RemoteError r =>
      match status r with
      | Some s => if s =? 0 then message r else Js.showZ s
      | None => message r
      end
  end.

(** [err.status === 404] *)
Definition is404 (e : Exn) : bool :=
  match e with
  | RemoteError r => match status r with Some s => s =? 404 | None => false end
  | ScriptError _ => false
  end.

Inductive PrState := StOpen | StClosed.

(** The arguments of [octokit.pulls.list]. *)
Record PullsQuery := mkPullsQuery {
  q_owner : string;
  q_repo : string;
  q_state : PrState;
  q_per_page : Z;
  q_page : Z;
  q_sort : option string;
  q_direction : option string
}.

(** The run's configuration, as the top of the script derives it from the
    environment. [REPOS] is the raw text ([process.env.REPOS || '']). *)
Record Config := mkConfig {
  OWNER : string;
  REPOS : string;
  REVIEW_HOURS : Q;
  MAX_CLOSED_LOOKBACK_DAYS : Z;
  DRY_RUN : bool;
  INCLUDE_FORKS : bool;
  INCLUDE_ARCHIVED : bool
}.

(** [.split(',').map(r => r.trim()).filter(Boolean)] *)
Definition REPOS_RAW (cfg : Config) : list string :=
  filter Js.truthy (map Js.trim (Js.split "," (REPOS cfg))).

(** Number-to-text conversions of the comment templates:
    [x.toFixed(1)] and the default conversion inside a template. *)
Record NumFmt := mkNumFmt {
  toFixed1 : Q -> string;
  numToString : Q -> string
}.

(** The observable events of a run. *)
Inductive Event :=
| Log (args : list string)
| ListForOrg (org : string) (per_page page : Z) (r : Resp (list RepoInfo))
| ListForUser (username : string) (per_page page : Z) (r : Resp (list RepoInfo))
| PullsList (q : PullsQuery) (r : Resp (list PullRequest))
| ListReviews (o repo : string) (pull_number : Z) (r : Resp (list Review))
| GetRef (o repo ref : string) (r : Resp unit)
| CreateComment (o repo : string) (issue_number : Z) (body : string) (r : Resp unit).

(** The remote platform and the clock. *)
Record Remote (W : Type) := mkRemote {
  listForOrg : string -> Z -> Z -> W -> Resp (list RepoInfo) * W;
  listForUser : string -> Z -> Z -> W -> Resp (list RepoInfo) * W;
  pullsList : PullsQuery -> W -> Resp (list PullRequest) * W;
  listReviews : string -> string -> Z -> W -> Resp (list Review) * W;
  getRef : string -> string -> string -> W -> Resp unit * W;
  createComment : string -> string -> Z -> string -> W -> Resp unit * W;
  dateNow : W -> Z * W
}.
Arguments listForOrg {W}.
Arguments listForUser {W}.
Arguments pullsList {W}.
Arguments listReviews {W}.
Arguments getRef {W}.
Arguments createComment {W}.
Arguments dateNow {W}.

(** ** The computation monad: world passing, exceptions, events, fuel *)

Inductive Outcome (A : Type) : Type :=
| Done (a : A)
| Throw (e : Exn)
| OutOfFuel.
Arguments Done {A} a.
Arguments Throw {A} e.
Arguments OutOfFuel {A}.

Definition M (W A : Type) : Type := W -> Outcome A * W * list Event.

Definition ret {W A} (a : A) : M W A := fun w => (Done a, w, []).

Definition bind {W A B} (m : M W A) (k : A -> M W B) : M W B := fun w =>
  match m w with
  | (Done a, w1, ev1) =>
      match k a w1 with (o, w2, ev2) => (o, w2, ev1 ++ ev2) end
  | (Throw e, w1, ev1) => (Throw e, w1, ev1)
  | (OutOfFuel, w1, ev1) => (OutOfFuel, w1, ev1)
  end.

Definition throw {W A} (e : Exn) : M W A := fun w => (Throw e, w, []).

Definition outOfFuel {W A} : M W A := fun w => (OutOfFuel, w, []).

(** [try { m } catch (e) { h e }] *)
Definition tryCatch {W A} (m : M W A) (h : Exn -> M W A) : M W A := fun w =>
  match m w with
  | (Throw e, w1, ev1) =>
      match h e w1 with (o, w2, ev2) => (o, w2, ev1 ++ ev2) end
  | r => r
  end.

Definition emit {W} (e : Event) : M W unit := fun w => (Done tt, w, [e]).

(** [await] of a remote call: the call is recorded; a rejection throws. *)
Definition await {W A} (call : W -> Resp A * W) (ev : Resp A -> Event) : M W A :=
  fun w =>
    match call w with
    | (Ok a, w1) => (Done a, w1, [ev (Ok a)])
    | (Err e, w1) => (Throw (RemoteError e), w1, [ev (Err e)])
    end.

Declare Scope monad_scope.
Delimit Scope monad_scope with monad.
Notation "x <- m ;; k" := (bind m (fun x => k))
  (at level 61, m at next level, right associativity) : monad_scope.
Notation "m ;; k" := (bind m (fun _ => k))
  (at level 61, right associativity) : monad_scope.
Open Scope monad_scope.

(** [for (const x of xs) body(x)] *)
Fixpoint forEach {W A} (xs : list A) (body : A -> M W unit) : M W unit :=
  match xs with
  | [] => ret tt
  | x :: rest => body x ;; forEach rest body
  end.

(** Projections of a run. *)
Definition outcome {W A} (r : Outcome A * W * list Event) : Outcome A := fst (fst r).
Definition world {W A} (r : Outcome A * W * list Event) : W := snd (fst r).
Definition events {W A} (r : Outcome A * W * list Event) : list Event := snd r.

(** ** The script *)

Section Script.

Context {W : Type}.
Variable remote : Remote W.
Variable fmt : NumFmt.
Variable cfg : Config.

(** [log(...args)] *)
Definition log (args : list string) : M W unit := emit (Log args).

(** [Date.now()] *)
Definition now : M W Z := fun w =>
  match dateNow remote w with (t, w1) => (Done t, w1, []) end.

(** *** Repository resolution *)

Definition missingOwnerMsg (entry : string) : string :=
  ("Repository '" ++ entry ++
   "' missing owner. Provide OWNER env var or use 'owner/repo' form.")%string.

Definition invalidSpecMsg (entry : string) : string :=
  ("Invalid repo spec: '" ++ entry ++ "'. Use 'owner/repo' or 'repo'.")%string.

Definition ownerRequiredMsg : string :=
  "OWNER env var required when REPOS not provided.".

(** The [for] loop of [parseExplicitRepos]; [parsed] is the array it
    pushes to. *)
Fixpoint parseEntries (entries : list string) (parsed : list RepoRef)
  : M W (list RepoRef) :=
  match entries with
  | [] => ret parsed
  | entry :: rest =>
      if negb (Js.truthy entry) then parseEntries rest parsed
      else
        match Js.split "/" entry with
        | [p0] =>
            if negb (Js.truthy (OWNER cfg)) then
              throw (ScriptError (missingOwnerMsg entry))
            else parseEntries rest (parsed ++ [mkRepoRef (OWNER cfg) p0])
        | [p0; p1] => parseEntries rest (parsed ++ [mkRepoRef p0 p1])
        | _ => throw (ScriptError (invalidSpecMsg entry))
        end
  end.

Definition parseExplicitRepos : M W (list RepoRef) :=
  match REPOS_RAW cfg with
  | [] => ret []
  | entries => parseEntries entries []
  end.

(** The filter of a listing page. *)
Definition keepRepo (r : RepoInfo) : bool :=
  (INCLUDE_ARCHIVED cfg || negb (archived r)) &&
  (INCLUDE_FORKS cfg || negb (fork r)).

Definition toRef (r : RepoInfo) : RepoRef :=
  mkRepoRef (owner_login r) (repo_name r).

(** The [while (true)] loop of [autoDiscoverRepos]. [data] is declared
    anew (undefined) in every iteration; [isOrg], [page] and [repos] live
    across iterations. *)
Fixpoint discoverLoop (fuel : nat) (isOrg : bool) (page : Z)
    (repos : list RepoRef) : M W (list RepoRef) :=
  match fuel with
  | O => outOfFuel
  | S fuel' =>
      st <- tryCatch
              (d <- await (listForOrg remote (OWNER cfg) 100 page)
                          (ListForOrg (OWNER cfg) 100 page) ;;
               ret (Some d, isOrg))
              (fun err =>
                 if is404 err then ret (None, false) else throw err) ;;
      data <- (if negb (snd st) then
                 userData <- await (listForUser remote (OWNER cfg) 100 page)
                                   (ListForUser (OWNER cfg) 100 page) ;;
                 ret (Some userData)
               else ret (fst st)) ;;
      match data with
      | None | Some [] => ret repos
      | Some d =>
          discoverLoop fuel' (snd st) (page + 1)
            (repos ++ map toRef (filter keepRepo d))
      end
  end.

Definition autoDiscoverRepos (fuel : nat) : M W (list RepoRef) :=
  if negb (Js.truthy (OWNER cfg)) then throw (ScriptError ownerRequiredMsg)
  else
    log ["Auto-discovering repositories for owner"; OWNER cfg] ;;
    discoverLoop fuel true 1 [].

Definition listRepos (fuel : nat) : M W (list RepoRef) :=
  explicit <- parseExplicitRepos ;;
  match explicit with
  | _ :: _ => ret explicit
  | [] => autoDiscoverRepos fuel
  end.

(** *** Reviewer reminders *)

(** [x > y] on the rationals. *)
Definition Qgtb (x y : Q) : bool := negb (Qle_bool x y).

(** [reviews.find(r => r.user && r.user.login === reviewer.login)] *)
Definition reviewByUser (reviews : list Review) (reviewer : string)
  : option Review :=
  find (fun r => match user r with
                 | Some login => String.eqb login reviewer
                 | None => false
                 end) reviews.

(** [(Date.now() - assignedTime) / 36e5] *)
Definition hoursSince (t : Z) (assignedTime : Z) : Q :=
  Qmake (t - assignedTime) 3600000.

Definition reviewerBody (reviewer : string) (hoursSinceRequested : Q) : string :=
  ("@" ++ reviewer ++ " You were requested for review " ++
   toFixed1 fmt hoursSinceRequested ++ " hours ago (threshold " ++
   numToString fmt (REVIEW_HOURS cfg) ++ "h). Please review this PR.")%string.

Definition dryRunLine (n : Z) (body : string) : string :=
  ("[DRY_RUN] Would comment on PR #" ++ Js.showZ n ++ ": " ++ body)%string.

(** The body of [for (const reviewer of pr.requested_reviewers)]. *)
Definition remindReviewer (o repo : string) (pr : PullRequest)
    (reviews : list Review) (reviewer : string) : M W unit :=
  let found := reviewByUser reviews reviewer in
  let assignedTime := created_at pr in
  t <- now ;;
  let hoursSinceRequested := hoursSince t assignedTime in
  if (match found with None => true | Some _ => false end)
     && Qgtb hoursSinceRequested (REVIEW_HOURS cfg)
  then
    let body := reviewerBody reviewer hoursSinceRequested in
    if DRY_RUN cfg then log [dryRunLine (number pr) body]
    else
      await (createComment remote o repo (number pr) body)
            (CreateComment o repo (number pr) body) ;;
      log [("Commented reminder on PR #" ++ Js.showZ (number pr) ++
            " for @" ++ reviewer)%string]
  else ret tt.

(** The body of [for (const pr of prs)] in the reviewer scan. *)
Definition remindPr (o repo : string) (pr : PullRequest) : M W unit :=
  match requested_reviewers pr with
  | [] => ret tt
  | reviewers =>
      reviews <- await (listReviews remote o repo (number pr))
                       (ListReviews o repo (number pr)) ;;
      forEach reviewers (remindReviewer o repo pr reviews)
  end.

Definition openQuery (o repo : string) (page : Z) : PullsQuery :=
  mkPullsQuery o repo StOpen 50 page None None.

Fixpoint reviewerLoop (fuel : nat) (o repo : string) (page : Z) : M W unit :=
  match fuel with
  | O => outOfFuel
  | S fuel' =>
      prs <- await (pullsList remote (openQuery o repo page))
                   (PullsList (openQuery o repo page)) ;;
      match prs with
      | [] => ret tt
      | _ =>
          forEach prs (remindPr o repo) ;;
          reviewerLoop fuel' o repo (page + 1)
      end
  end.

Definition notifyInactiveReviewers (fuel : nat) (o repo : string) : M W unit :=
  log [("[" ++ o ++ "/" ++ repo ++
        "] Checking open PRs for inactive reviewers (> " ++
        numToString fmt (REVIEW_HOURS cfg) ++ "h)")%string] ;;
  reviewerLoop fuel o repo 1.

(** *** Branch clean-up reminders *)

Definition branchBody (author branchName : string) : string :=
  ("@" ++ author ++ " The PR was merged but the branch `" ++ branchName ++
   "` still exists. Please delete it if it's no longer needed.")%string.

(** The [try] block of the branch scan. *)
Definition checkBranch (o repo : string) (pr : PullRequest)
    (branchName : string) : M W unit :=
  await (getRef remote o repo ("heads/" ++ branchName)%string)
        (GetRef o repo ("heads/" ++ branchName)%string) ;;
  let body := branchBody (user_login pr) branchName in
  if DRY_RUN cfg then log [dryRunLine (number pr) body]
  else
    await (createComment remote o repo (number pr) body)
          (CreateComment o repo (number pr) body) ;;
    log [("Commented branch reminder on PR #" ++ Js.showZ (number pr))%string].

(** Its [catch] block. *)
Definition onRefError (branchName : string) (error : Exn) : M W unit :=
  if is404 error then ret tt
  else log ["Error checking ref"; branchName; statusOrMessage error].

(** The body of [for (const pr of prs)] in the branch scan; the result
    is the value of [anyWithinWindow] after the iteration. *)
Definition cleanupPr (o repo : string) (since : Z) (pr : PullRequest)
    (anyWithinWindow : bool) : M W bool :=
  let updated := updated_at pr in
  if updated <? since then ret anyWithinWindow
  else
    match merged_at pr with
    | Some _ =>
        let branchName := head_ref pr in
        tryCatch (checkBranch o repo pr branchName) (onRefError branchName) ;;
        ret true
    | None => ret true
    end.

Fixpoint cleanupPage (o repo : string) (since : Z) (prs : list PullRequest)
    (anyWithinWindow : bool) : M W bool :=
  match prs with
  | [] => ret anyWithinWindow
  | pr :: rest =>
      any <- cleanupPr o repo since pr anyWithinWindow ;;
      cleanupPage o repo since rest any
  end.

Definition closedQuery (o repo : string) (page : Z) : PullsQuery :=
  mkPullsQuery o repo StClosed 50 page (Some "updated") (Some "desc").

Fixpoint cleanupLoop (fuel : nat) (o repo : string) (since : Z) (page : Z)
  : M W unit :=
  match fuel with
  | O => outOfFuel
  | S fuel' =>
      prs <- await (pullsList remote (closedQuery o repo page))
                   (PullsList (closedQuery o repo page)) ;;
      match prs with
      | [] => ret tt
      | _ =>
          anyWithinWindow <- cleanupPage o repo since prs false ;;
          if negb anyWithinWindow then ret tt
          else cleanupLoop fuel' o repo since (page + 1)
      end
  end.

Definition notifyUndeletedBranches (fuel : nat) (o repo : string) : M W unit :=
  log [("[" ++ o ++ "/" ++ repo ++
        "] Checking merged PRs for undeleted branches (lookback " ++
        Js.showZ (MAX_CLOSED_LOOKBACK_DAYS cfg) ++ "d)")%string] ;;
  t <- now ;;
  let since := t - MAX_CLOSED_LOOKBACK_DAYS cfg * 86400000 in
  cleanupLoop fuel o repo since 1.

(** *** The orchestrator *)

Definition repoLabel (r : RepoRef) : string := (owner r ++ "/" ++ name r)%string.

(** The [try] block of [main]'s loop: the two scans of one repository. *)
Definition scanRepo (fuel : nat) (r : RepoRef) : M W unit :=
  notifyInactiveReviewers fuel (owner r) (name r) ;;
  notifyUndeletedBranches fuel (owner r) (name r).

(** The body of [for (const { owner, name } of repos)]. *)
Definition processRepo (fuel : nat) (r : RepoRef) : M W unit :=
  tryCatch
    (scanRepo fuel r)
    (fun e =>
       log [("Error processing repo " ++ repoLabel r ++ ":")%string;
            statusOrMessage e]).

Definition main (fuel : nat) : M W unit :=
  repos <- listRepos fuel ;;
  log ["Target repositories:"; String.concat ", " (map repoLabel repos)] ;;
  forEach repos (processRepo fuel) ;;
  log ["Completed run"].

End Script.

(** ** Auxiliary forms of a run *)

(** A run with events put in front of its own. *)
Definition prefixed {W A} (evs : list Event) (r : Outcome A * W * list Event)
  : Outcome A * W * list Event :=
  (outcome r, world r, evs ++ events r).

Section Unfoldings.

Context {W : Type}.
Variable remote : Remote W.
Variable cfg : Config.

(** The rest of a discovery iteration once the mode is "user": the
    user-style page is fetched and decides; [before] are the events of
    the iteration so far. *)
Definition userPage (fuel : nat) (page : Z) (repos : list RepoRef)
    (before : list Event) (w : W) : Outcome (list RepoRef) * W * list Event :=
  match listForUser remote (OWNER cfg) 100 page w with
  | (Ok u, w1) =>
      match u with
      | [] => (Done repos, w1, before ++ [ListForUser (OWNER cfg) 100 page (Ok u)])
      | _ => prefixed (before ++ [ListForUser (OWNER cfg) 100 page (Ok u)])
               (discoverLoop remote cfg fuel false (page + 1)
                  (repos ++ map toRef (filter (keepRepo cfg) u)) w1)
      end
  | (Err e, w1) =>
      (Throw (RemoteError e), w1,
       before ++ [ListForUser (OWNER cfg) 100 page (Err e)])
  end.

End Unfoldings.

(** ** Vocabulary of the statements *)

(** An entry without a slash, and one with more than one slash. *)
Definition bareEntry (e : string) : Prop := List.length (Js.split "/" e) = 1%nat.
Definition overSplit (e : string) : Prop := (2 < List.length (Js.split "/" e))%nat.

(** The three configurations the resolver rejects. *)
Definition ConfigurationFailure (cfg : Config) : Prop :=
  (REPOS_RAW cfg = [] /\ OWNER cfg = "") \/
  (exists e, In e (REPOS_RAW cfg) /\ bareEntry e /\ OWNER cfg = "") \/
  (exists e, In e (REPOS_RAW cfg) /\ overSplit e).

(** A run that ended by throwing an error of the script's own. *)
Definition failsWithConfigError {W A} (r : Outcome A * W * list Event) : Prop :=
  exists msg, outcome r = Throw (ScriptError msg).

(** How the specification reads an explicit entry: [owner/name], a bare name
    taking the configured owner. *)
Definition entryRef (cfg : Config) (e : string) : RepoRef :=
  match Js.split "/" e with
  | [p0; p1] => mkRepoRef p0 p1
  | _ => mkRepoRef (OWNER cfg) e
  end.

(** The boolean form of "this entry is accepted". *)
Definition entryOk (cfg : Config) (e : string) : bool :=
  match Js.split "/" e with
  | [_] => Js.truthy (OWNER cfg)
  | [_; _] => true
  | _ => false
  end.

(** The listing entries a discovery consumed, read off its events with
    the mode held as the specification words it: organization pages count while
    the mode is "organization"; a not-found answer switches the mode to
    "user" for good; user pages always count. *)
Fixpoint pagesUsed (isOrg : bool) (evs : list Event) : list RepoInfo :=
  match evs with
  | [] => []
  | ListForOrg _ _ _ (Ok d) :: rest =>
      if isOrg then d ++ pagesUsed true rest else pagesUsed false rest
  | ListForOrg _ _ _ (Err e) :: rest =>
      if is404 (RemoteError e) then pagesUsed false rest else []
  | ListForUser _ _ _ (Ok d) :: rest => d ++ pagesUsed isOrg rest
  | _ :: rest => pagesUsed isOrg rest
  end.




(** *** Vocabulary of the reviewer scan *)

(** [ev] is a comment call. *)
Definition isComment (ev : Event) : bool :=
  match ev with CreateComment _ _ _ _ _ => true | _ => false end.

(** The pull requests of the pages a scan received. *)
Fixpoint fetched (evs : list Event) : list PullRequest :=
  match evs with
  | [] => []
  | PullsList _ (Ok prs) :: rest => prs ++ fetched rest
  | _ :: rest => fetched rest
  end.

(** The reviewer has a review among [reviews]. *)
Definition hasReview (reviews : list Review) (reviewer : string) : Prop :=
  exists r, In r reviews /\ user r = Some reviewer.

(** The test of the reviewer loop, as one boolean. *)
Definition stale (cfg : Config) (reviews : list Review) (reviewer : string)
    (hours : Q) : bool :=
  (match reviewByUser reviews reviewer with None => true | Some _ => false end)
  && Qgtb hours (REVIEW_HOURS cfg).






(** *** Vocabulary of the branch scan *)

(** [!(updated < since)] *)
Definition withinWindow (since : Z) (pr : PullRequest) : bool :=
  negb (updated_at pr <? since).

Definition isMerged (pr : PullRequest) : bool :=
  match merged_at pr with Some _ => true | None => false end.

Definition headRef (pr : PullRequest) : string := ("heads/" ++ head_ref pr)%string.

(** What the [catch] of the branch scan logs for a rejected call. *)
Definition refErrorLog (branchName : string) (e : RequestError) : list Event :=
  if is404 (RemoteError e) then []
  else [Log ["Error checking ref"; branchName; statusOrMessage (RemoteError e)]].


(** Every ref lookup among [evs] is the lookup of the head branch of a
    merged pull request of a received page that was updated at or after
    [since]. *)
Definition refChecksWithinWindow (since : Z) (evs : list Event) : Prop :=
  forall o repo ref r,
    In (GetRef o repo ref r) evs ->
    exists pr,
      In pr (fetched evs) /\ ref = headRef pr /\
      isMerged pr = true /\ since <= updated_at pr.

(** *** Vocabulary of events and outcomes *)


(** Every event of every run of [m] satisfies [P]. *)
Definition evAll {W A} (P : Event -> Prop) (m : M W A) : Prop :=
  forall w, Forall P (events (m w)).

(** [m] never runs out of fuel. *)
Definition total {W A} (m : M W A) : Prop :=
  forall w, outcome (m w) <> OutOfFuel.

(** [m] never throws. *)
Definition safe {W A} (m : M W A) : Prop :=
  forall w e, outcome (m w) <> Throw e.


(** *** Vocabulary of failures *)

Definition isFailedComment (ev : Event) : bool :=
  match ev with CreateComment _ _ _ _ (Err _) => true | _ => false end.

(** The containment of a failed comment call the way the executor's
    contract words it: the run does not throw, and a log line carries the
    status of the failure. *)
Definition postFailureContained {W A} (run : Outcome A * W * list Event) : Prop :=
  forall o repo n body e,
    In (CreateComment o repo n body (Err e)) (events run) ->
    (forall x, outcome run <> Throw x) /\
    exists line, In (Log line) (events run) /\
                 In (statusOrMessage (RemoteError e)) line.

(** A failed comment call, if there is one, is the last event of the run
    and the run throws its error. *)
Definition failedPostIsFatal {W A} (run : Outcome A * W * list Event) : Prop :=
  Forall (fun ev => isFailedComment ev = false) (events run) \/
  exists pre o repo n body e,
    events run = pre ++ [CreateComment o repo n body (Err e)] /\
    Forall (fun ev => isFailedComment ev = false) pre /\
    outcome run = Throw (RemoteError e).

Definition fatalAll {W A} (m : M W A) : Prop :=
  forall w, failedPostIsFatal (m w).

(** *** Vocabulary of the orchestrator *)

(** The line the [catch] block of [main]'s loop logs. *)
Definition repoErrorLine (r : RepoRef) (e : Exn) : Event :=
  Log [("Error processing repo " ++ repoLabel r ++ ":")%string;
       statusOrMessage e].

(** The first line a repository's processing logs. *)
Definition reviewerHeader (fmt : NumFmt) (cfg : Config) (r : RepoRef) : Event :=
  Log [("[" ++ owner r ++ "/" ++ name r ++
        "] Checking open PRs for inactive reviewers (> " ++
        numToString fmt (REVIEW_HOURS cfg) ++ "h)")%string].

(** [evs] splits into one stretch of events per repository, in order,
    each starting with the repository's first line. *)
Definition allAttempted (fmt : NumFmt) (cfg : Config) (repos : list RepoRef)
    (evs : list Event) : Prop :=
  exists chunks,
    Forall2 (fun r c => exists rest, c = reviewerHeader fmt cfg r :: rest)
            repos chunks /\
    evs = List.concat chunks.

(** From page [N] + 1 on, a pull-request listing has no entry. *)
Definition pagesEnd {W} (remote : Remote W) (N : Z) : Prop :=
  forall q w,
    N < q_page q ->
    match fst (pullsList remote q w) with
    | Ok (_ :: _) => False
    | _ => True
    end.

(** ** The start of the script: inputs, token, configuration

    [process.env] is a partial map from names to strings.  The two
    numeric parsers of the configuration are taken as parameters
    ([NumParse]), like the printers; a text that is no number ([NaN]) is
    outside the model. *)

Module Startup.

(** [c.toUpperCase()] and [c.toLowerCase()] on one-byte characters. *)
Definition upper (c : ascii) : ascii :=
  let n := nat_of_ascii c in
  if ((97 <=? n)%nat && (n <=? 122)%nat)%bool then ascii_of_nat (n - 32) else c.

Definition lower (c : ascii) : ascii :=
  let n := nat_of_ascii c in
  if ((65 <=? n)%nat && (n <=? 90)%nat)%bool then ascii_of_nat (n + 32) else c.

Fixpoint mapString (f : ascii -> ascii) (s : string) : string :=
  match s with
  | EmptyString => EmptyString
  | String c rest => String (f c) (mapString f rest)
  end.

Definition toUpperCase : string -> string := mapString upper.
Definition toLowerCase : string -> string := mapString lower.

(** [process.env] *)
Definition Env : Type := string -> option string.

(** Truthiness of [process.env[k]]: set and not empty. *)
Definition isSet (v : option string) : bool :=
  match v with Some s => Js.truthy s | None => false end.

(** [process.env[k] = v] *)
Definition setenv (env : Env) (k v : string) : Env :=
  fun k' => if String.eqb k' k then Some v else env k'.

(** [v || d] for a variable [v] and a string [d]. *)
Definition orElse (v : option string) (d : string) : string :=
  match v with
  | Some s => if Js.truthy s then s else d
  | None => d
  end.

(** [`INPUT_${name.toUpperCase()}`] *)
Definition inputKey (name : string) : string :=
  ("INPUT_" ++ toUpperCase name)%string.

Definition mapInput (name targetEnv : string) (env : Env) : Env :=
  let key := inputKey name in
  match env key with
  | Some v =>
      if Js.truthy v && negb (isSet (env targetEnv))
      then setenv env targetEnv v
      else env
  | None => env
  end.

(** The eight calls of [mapInput], in order. *)
Definition inputs : list (string * string) :=
  [("github_token", "GITHUB_TOKEN");
   ("owner", "OWNER");
   ("repos", "REPOS");
   ("review_hours", "REVIEW_HOURS");
   ("max_closed_lookback_days", "MAX_CLOSED_LOOKBACK_DAYS");
   ("dry_run", "DRY_RUN");
   ("include_forks", "INCLUDE_FORKS");
   ("include_archived", "INCLUDE_ARCHIVED")].

Definition mapInputs (pairs : list (string * string)) (env : Env) : Env :=
  fold_left (fun e p => mapInput (fst p) (snd p) e) pairs env.

Definition applyInputs (env : Env) : Env := mapInputs inputs env.

(** [parseFloat] and [parseInt(_, 10)]. *)
Record NumParse := mkNumParse {
  parseFloat : string -> Q;
  parseInt10 : string -> Z
}.

(** [/^true$/i.test(s)] *)
Definition testTrue (s : string) : bool := String.eqb (toLowerCase s) "true".

(** The constants at the top of the script, read from the environment. *)
Definition loadConfig (p : NumParse) (env : Env) : Config :=
  mkConfig
    (orElse (env "OWNER") (orElse (env "ORG") ""))
    (orElse (env "REPOS") "")
    (parseFloat p (orElse (env "REVIEW_HOURS") "12"))
    (parseInt10 p (orElse (env "MAX_CLOSED_LOOKBACK_DAYS") "14"))
    (testTrue (orElse (env "DRY_RUN") "false"))
    (testTrue (orElse (env "INCLUDE_FORKS") "false"))
    (testTrue (orElse (env "INCLUDE_ARCHIVED") "false")).

(** How the process ends: the token is missing (a message on the error
    stream, then [process.exit(1)]); [main] rejected (the error on the
    error stream, then [process.exit(1)]); [main] resolved; or the run
    was cut off for lack of fuel. *)
Inductive Ending :=
| MissingToken
| Failed (e : Exn)
| Completed
| CutOff.

Definition exitCode (e : Ending) : option Z :=
  match e with
  | MissingToken | Failed _ => Some 1
  | Completed => Some 0
  | CutOff => None
  end.

Definition endingOf (o : Outcome unit) : Ending :=
  match o with
  | Done _ => Completed
  | Throw e => Failed e
  | OutOfFuel => CutOff
  end.

(** The script from its first line: the inputs are mapped, a missing
    token ends the process, otherwise [main] runs on the configuration
    read from the environment. *)
Definition script {W} (remote : Remote W) (fmt : NumFmt) (p : NumParse)
    (env : Env) (fuel : nat) (w : W) : Ending * W * list Event :=
  let env' := applyInputs env in
  if negb (isSet (env' "GITHUB_TOKEN")) then (MissingToken, w, [])
  else
    let run := main remote fmt (loadConfig p env') fuel w in
    (endingOf (outcome run), world run, events run).

(** The first non-empty of some variables, or [d]. *)
Fixpoint firstSet (vs : list (option string)) (d : string) : string :=
  match vs with
  | [] => d
  | v :: rest => orElse v (firstSet rest d)
  end.

End Startup.

(** What an input mapping leaves in its target: the variable itself
    when it is set, otherwise the input when that is set. *)
Definition resolvedInput (env : Startup.Env) (name target : string)
  : option string :=
  if Startup.isSet (env target) then env target
  else if Startup.isSet (env (Startup.inputKey name))
       then env (Startup.inputKey name)
       else env target.

(** ** Further vocabulary: what the scans call, and in which order *)

(** A remote call of [ev], if it is one, is addressed to the repository
    [o]/[repo]; listing repositories is addressed to none. *)
Definition addressedTo (o repo : string) (ev : Event) : Prop :=
  match ev with
  | Log _ => True
  | ListForOrg _ _ _ _ | ListForUser _ _ _ _ => False
  | PullsList q _ => q_owner q = o /\ q_repo q = repo
  | ListReviews o' repo' _ _ => o' = o /\ repo' = repo
  | GetRef o' repo' _ _ => o' = o /\ repo' = repo
  | CreateComment o' repo' _ _ _ => o' = o /\ repo' = repo
  end.

(** A log line, or a repository listing for [org] with 100 entries a
    page. *)
Definition listingFor (org : string) (ev : Event) : Prop :=
  match ev with
  | Log _ => True
  | ListForOrg o pp _ _ | ListForUser o pp _ _ => o = org /\ pp = 100
  | _ => False
  end.

(** The pull-request listings among the events, in order. *)
Fixpoint pullQueries (evs : list Event) : list PullsQuery :=
  match evs with
  | [] => []
  | PullsList q _ :: rest => q :: pullQueries rest
  | _ :: rest => pullQueries rest
  end.

(** The pages of the organization-style listings among the events. *)
Fixpoint orgProbes (evs : list Event) : list Z :=
  match evs with
  | [] => []
  | ListForOrg _ _ page _ :: rest => page :: orgProbes rest
  | _ :: rest => orgProbes rest
  end.

(** [p], [p] + 1, ..., [k] numbers in all. *)
Fixpoint countFrom (p : Z) (k : nat) : list Z :=
  match k with
  | O => []
  | S k' => p :: countFrom (p + 1) k'
  end.

(** The pull requests whose reviews were listed, in order. *)
Fixpoint reviewCalls (evs : list Event) : list Z :=
  match evs with
  | [] => []
  | ListReviews _ _ n _ :: rest => n :: reviewCalls rest
  | _ :: rest => reviewCalls rest
  end.

(** [pr.requested_reviewers && pr.requested_reviewers.length] *)
Definition hasReviewers (pr : PullRequest) : bool :=
  match requested_reviewers pr with [] => false | _ => true end.

(** The refs looked up, in order. *)
Fixpoint lookups (evs : list Event) : list string :=
  match evs with
  | [] => []
  | GetRef _ _ ref _ :: rest => ref :: lookups rest
  | _ :: rest => lookups rest
  end.

(** A ref lookup that found the ref. *)
Definition isRefFound (ev : Event) : bool :=
  match ev with GetRef _ _ _ (Ok _) => true | _ => false end.

Definition isPulls (ev : Event) : bool :=
  match ev with PullsList _ _ => true | _ => false end.

(** The pull requests the branch scan looks up. *)
Definition toLookUp (since : Z) (pr : PullRequest) : bool :=
  withinWindow since pr && isMerged pr.

(** [a] is the beginning of [b]. *)
Definition prefixOf {A} (a b : list A) : Prop := exists rest, b = a ++ rest.

(** The error of a rejected remote call. *)
Definition rejection (ev : Event) : option RequestError :=
  match ev with
  | ListForOrg _ _ _ (Err e) | ListForUser _ _ _ (Err e)
  | PullsList _ (Err e) | ListReviews _ _ _ (Err e)
  | GetRef _ _ _ (Err e) | CreateComment _ _ _ _ (Err e) => Some e
  | _ => None
  end.

(** A run that throws does so at its last event, a rejected remote call
    of kind [K], and throws the error of that call. *)
Definition abortsAt {W A} (K : Event -> bool)
    (run : Outcome A * W * list Event) : Prop :=
  forall e,
    outcome run = Throw e ->
    exists pre ev err,
      events run = pre ++ [ev] /\ K ev = true /\
      rejection ev = Some err /\ e = RemoteError err.

Definition abortsAtAll {W A} (K : Event -> bool) (m : M W A) : Prop :=
  forall w, abortsAt K (m w).

Definition anyCall (ev : Event) : bool := true.

(** User-style listings occur only once an organization-style listing
    was refused with not-found ([seen] tells whether one was). *)
Fixpoint userAfterNotFound (seen : bool) (evs : list Event) : Prop :=
  match evs with
  | [] => True
  | ListForOrg _ _ _ (Err e) :: rest =>
      userAfterNotFound (seen || is404 (RemoteError e)) rest
  | ListForUser _ _ _ _ :: rest => seen = true /\ userAfterNotFound seen rest
  | _ :: rest => userAfterNotFound seen rest
  end.

Definition isUserListing (ev : Event) : bool :=
  match ev with ListForUser _ _ _ _ => true | _ => false end.

Definition isOrgNotFound (ev : Event) : bool :=
  match ev with
  | ListForOrg _ _ _ (Err e) => is404 (RemoteError e)
  | _ => false
  end.

(** A rejected listing that ends a discovery: an organization-style
    listing refused otherwise than with not-found, or any refused
    user-style listing. *)
Definition fatalListing (ev : Event) : bool :=
  match ev with
  | ListForOrg _ _ _ (Err e) => negb (is404 (RemoteError e))
  | ListForUser _ _ _ (Err _) => true
  | _ => false
  end.

(** From page [N] + 1 on, the repository listings of [org] have no
    entry. *)
Definition listingsEnd {W} (remote : Remote W) (org : string) (N : Z) : Prop :=
  forall page w,
    N < page ->
    match fst (listForOrg remote org 100 page w) with
    | Ok (_ :: _) => False
    | _ => True
    end /\
    match fst (listForUser remote org 100 page w) with
    | Ok (_ :: _) => False
    | _ => True
    end.

(** An explicit entry as the target line shows it. *)
Definition entryLabel (cfg : Config) (e : string) : string :=
  match Js.split "/" e with
  | [_] => (OWNER cfg ++ "/" ++ e)%string
  | _ => e
  end.

(** The configuration with other include flags. *)
Definition withIncludes (forks archived : bool) (cfg : Config) : Config :=
  mkConfig (OWNER cfg) (REPOS cfg) (REVIEW_HOURS cfg)
    (MAX_CLOSED_LOOKBACK_DAYS cfg) (DRY_RUN cfg) forks archived.

(** Two runs that differ at most in the value they return. *)
Definition sameCourse {W A} (r1 r2 : Outcome A * W * list Event) : Prop :=
  events r1 = events r2 /\ world r1 = world r2 /\
  match outcome r1, outcome r2 with
  | Done _, Done _ => True
  | Throw e1, Throw e2 => e1 = e2
  | OutOfFuel, OutOfFuel => True
  | _, _ => False
  end.

Definition isReviewListing (ev : Event) : bool :=
  match ev with ListReviews _ _ _ _ => true | _ => false end.




(** [ev] is a comment call of the branch scan of [o]/[repo] that the
    events [evs] justify: it carries the clean-up text for a pull request
    of a received page that is to be looked up, and the lookup of its
    head branch found the ref. *)
Definition justifiedCleanup (o repo : string) (since : Z)
    (evs : list Event) (ev : Event) : Prop :=
  exists pr a r,
    In pr (fetched evs) /\ toLookUp since pr = true /\
    In (GetRef o repo (headRef pr) (Ok a)) evs /\
    ev = CreateComment o repo (number pr)
           (branchBody (user_login pr) (head_ref pr)) r.

(** ** A concrete platform for examples

    A platform whose answers depend on the arguments only (the world is
    [unit]) and whose clock stands still. *)

Module Demo.

Record Site := mkSite {
  site_org : Z -> Resp (list RepoInfo);
  site_user : Z -> Resp (list RepoInfo);
  site_pulls : PullsQuery -> Resp (list PullRequest);
  site_reviews : Z -> Resp (list Review);
  site_ref : string -> Resp unit;
  site_comment : Z -> Resp unit;
  site_clock : Z
}.

Definition remoteOf (s : Site) : Remote unit :=
  mkRemote unit
    (fun _ _ page w => (site_org s page, w))
    (fun _ _ page w => (site_user s page, w))
    (fun q w => (site_pulls s q, w))
    (fun _ _ n w => (site_reviews s n, w))
    (fun _ _ ref w => (site_ref s ref, w))
    (fun _ _ n _ w => (site_comment s n, w))
    (fun w => (site_clock s, w)).

(** [x.toFixed(1)] on an exact rational: the nearest tenth, ties upwards
    in magnitude. *)
Definition toFixed1 (x : Q) : string :=
  let a := Z.abs (Qnum x) in
  let d := Zpos (Qden x) in
  let n := (20 * a + d) / (2 * d) in
  let sign := if Qnum x <? 0 then "-" else "" in
  let units := Js.showZ (n / 10) in
  let tenths := Js.showZ (n mod 10) in
  (sign ++ units ++ "." ++ tenths)%string.

(** The default conversion; exact on integers, one decimal otherwise. *)
Definition numToString (x : Q) : string :=
  if (Zpos (Qden x) =? 1) then Js.showZ (Qnum x) else toFixed1 x.

Definition fmt : NumFmt := mkNumFmt toFixed1 numToString.

Definition hour : Z := 3600000.
Definition day : Z := 86400000.

(** An error answer with a status code. *)
Definition failure (code : Z) (msg : string) : RequestError :=
  mkRequestError (Some code) msg.

Definition notFound : RequestError := failure 404 "Not Found".
Definition serverError : RequestError := failure 500 "Internal Server Error".

(** Pages of a listing: page 1 is [l], every other page is empty. *)
Definition onePage {A} (l : list A) (page : Z) : Resp (list A) :=
  if page =? 1 then Ok l else Ok [].

Definition config (owner repos : string) (dry : bool) : Config :=
  mkConfig owner repos (12 # 1) 14 dry false false.

(** The clock of the examples: 1000 hours after the epoch. *)
Definition clock : Z := 1000 * hour.

(** An open pull request created [h] hours before [clock], with the
    given requested reviewers. *)
Definition openPr (n : Z) (h : Z) (reviewers : list string) : PullRequest :=
  mkPullRequest n (clock - h * hour) (clock - h * hour) None
    "topic" "alice" reviewers.

(** A closed pull request updated [d] days before [clock], merged or not. *)
Definition closedPr (n : Z) (d : Z) (merged : bool) (branch : string)
  : PullRequest :=
  mkPullRequest n (clock - 40 * day) (clock - d * day)
    (if merged then Some (clock - d * day) else None)
    branch "alice" [].

Definition pullsOf (opened closed : Z -> Resp (list PullRequest))
    (q : PullsQuery) : Resp (list PullRequest) :=
  match q_state q with
  | StOpen => opened (q_page q)
  | StClosed => closed (q_page q)
  end.

(** A site with nothing in it, to be overridden field by field. *)
Definition emptySite : Site :=
  mkSite (fun _ => Ok []) (fun _ => Ok []) (fun _ => Ok [])
         (fun _ => Ok []) (fun _ => Ok tt) (fun _ => Ok tt) clock.

End Demo.

(** ** Example configurations and sites *)

Module Examples.
Import Demo.


(** A user account: the organization listing is refused with not-found
    on page 1 but, oddly, answers on page 2; the user listing has one
    page with a plain repository, a fork and an archived one. *)
Definition userSite : Site :=
  mkSite
    (fun page => if page =? 1 then Err notFound
                 else Ok [mkRepoInfo "acme" "stray" false false])
    (onePage [mkRepoInfo "bob" "tool" false false;
              mkRepoInfo "bob" "copy" false true;
              mkRepoInfo "bob" "old" true false])
    (fun _ => Ok []) (fun _ => Ok []) (fun _ => Ok tt) (fun _ => Ok tt) clock.

Definition bobCfg : Config := config "bob" "" false.

(** One repository, [acme/web]. *)
Definition liveCfg : Config := config "" "acme/web" false.
Definition dryCfg : Config := config "" "acme/web" true.

(** Pull request 42: merged, updated two days ago, branch [feature-x]. *)
Definition pr42 : PullRequest := closedPr 42 2 true "feature-x".

(** The start of the window of the examples: 14 days before [clock]. *)
Definition since14 : Z := clock - 14 * day.

(** Closed pull requests: page 1 is recent, page 2 is a month old. *)
Definition closedPages (page : Z) : Resp (list PullRequest) :=
  if page =? 1 then Ok [pr42; closedPr 43 1 false "unmerged"]
  else if page =? 2 then Ok [closedPr 7 30 true "ancient"]
  else Ok [].

(** The branch of 42 still exists and comments go through. *)
Definition branchSite : Site :=
  mkSite (fun _ => Ok []) (fun _ => Ok [])
         (pullsOf (fun _ => Ok []) closedPages)
         (fun _ => Ok []) (fun _ => Ok tt) (fun _ => Ok tt) clock.

(** The same, but comments are refused with not-found. *)
Definition lockedSite : Site :=
  mkSite (fun _ => Ok []) (fun _ => Ok [])
         (pullsOf (fun _ => Ok []) closedPages)
         (fun _ => Ok []) (fun _ => Ok tt) (fun _ => Err notFound) clock.

(** Pull request 5: open for 13 hours, reviewers bob and carol; nobody
    has reviewed. *)
Definition pr5 : PullRequest := openPr 5 13 ["bob"; "carol"].

(** Comments are refused with a server error. *)
Definition brokenSite : Site :=
  mkSite (fun _ => Ok []) (fun _ => Ok [])
         (pullsOf (onePage [pr5]) closedPages)
         (fun _ => Ok []) (fun _ => Ok tt) (fun _ => Err serverError) clock.

(** Everything works. *)
Definition healthySite : Site :=
  mkSite (fun _ => Ok []) (fun _ => Ok [])
         (pullsOf (onePage [pr5]) closedPages)
         (fun _ => Ok []) (fun _ => Ok tt) (fun _ => Ok tt) clock.

(** Two repositories; every listing of [acme/down] is refused with a
    server error, [acme/web] is healthy. *)
Definition mixedSite : Site :=
  mkSite (fun _ => Ok []) (fun _ => Ok [])
         (fun q => if String.eqb (q_repo q) "down" then Err serverError
                   else pullsOf (onePage [pr5]) closedPages q)
         (fun _ => Ok []) (fun _ => Ok tt) (fun _ => Ok tt) clock.

Definition mixedCfg : Config := config "acme" "down, web" true.

(** The organization [acme] with one repository and one open pull
    request, created 13 hours ago, whose reviewer bob has not reviewed. *)
Definition acmeSite : Site :=
  mkSite (onePage [mkRepoInfo "acme" "web" false false]) (fun _ => Ok [])
         (pullsOf (onePage [openPr 9 13 ["bob"]]) (fun _ => Ok []))
         (fun _ => Ok []) (fun _ => Ok tt) (fun _ => Ok tt) clock.

Definition acmeCfg : Config := config "acme" "" false.

End Examples.

(** ** Further example sites *)

Module MoreExamples.
Import Demo.

(** An owner that is neither an organization nor a user: both listings
    are refused with not-found. *)
Definition nobodySite : Site :=
  mkSite (fun _ => Err notFound) (fun _ => Err notFound)
         (fun _ => Ok []) (fun _ => Ok []) (fun _ => Ok tt) (fun _ => Ok tt)
         clock.

Definition nobodyCfg : Config := config "nobody" "" false.

(** An organization with two pages of repositories. *)
Definition orgSite : Site :=
  mkSite
    (fun page =>
       if page =? 1 then Ok [mkRepoInfo "acme" "web" false false;
                             mkRepoInfo "acme" "fork" false true]
       else if page =? 2 then Ok [mkRepoInfo "acme" "attic" true false]
       else Ok [])
    (fun _ => Ok [])
    (pullsOf (onePage [openPr 5 13 ["bob"; "carol"]]) Examples.closedPages)
    (fun _ => Ok []) (fun _ => Ok tt) (fun _ => Ok tt) clock.

Definition orgCfg : Config := config "acme" "" false.

(** The numeric parsers of the examples: constant. *)
Definition parsers : Startup.NumParse :=
  Startup.mkNumParse (fun _ => 12 # 1) (fun _ => 14).

(** An environment of the action: the token and the dry-run flag come as
    inputs, the repositories as a variable. *)
Definition actionEnv : Startup.Env :=
  fun k =>
    if String.eqb k "INPUT_DRY_RUN" then Some "True"
    else if String.eqb k "INPUT_GITHUB_TOKEN" then Some "t0ken"
    else if String.eqb k "REPOS" then Some "acme/web"
    else None.

End MoreExamples.
(** ** Basic facts *)

Lemma split_not_nil (sep : ascii) (s : string) : Js.split sep s <> [].
Proof.
  destruct s as [|c rest]; simpl; [discriminate|].
  destruct (Ascii.eqb c sep); [discriminate|].
  destruct (Js.split sep rest); discriminate.
Qed.

Lemma split_no_sep (sep : ascii) (s : string) (p : string) :
  Js.split sep s = [p] -> p = s.
Proof.
  revert p; induction s as [|c rest IH]; simpl; intros p H.
  - now inversion H.
  - destruct (Ascii.eqb c sep).
    + inversion H as [[H1 H2]]. now destruct (split_not_nil sep rest).
    + destruct (Js.split sep rest) as [|h t] eqn:E.
      * now destruct (split_not_nil sep rest).
      * inversion H; subst. f_equal. now apply IH.
Qed.

Lemma truthy_false (s : string) : Js.truthy s = false <-> s = "".
Proof. destruct s; simpl; split; intro H; congruence. Qed.

Lemma truthy_true (s : string) : Js.truthy s = true <-> s <> "".
Proof. destruct s; simpl; split; intro H; congruence. Qed.

Lemma REPOS_RAW_truthy (cfg : Config) (e : string) :
  In e (REPOS_RAW cfg) -> Js.truthy e = true.
Proof. unfold REPOS_RAW. intro H. now apply filter_In in H. Qed.

Section ResolverFacts.

Context {W : Type}.
Variable remote : Remote W.
Variable cfg : Config.

Lemma parseEntries_run (entries : list string) :
  Forall (fun e => Js.truthy e = true) entries ->
  forall (parsed : list RepoRef) (w : W),
    if forallb (entryOk cfg) entries then
      parseEntries cfg entries parsed w =
        (Done (parsed ++ map (entryRef cfg) entries), w, [])
    else
      failsWithConfigError (parseEntries cfg entries parsed w) /\
      world (parseEntries cfg entries parsed w) = w /\
      events (parseEntries cfg entries parsed w) = [].
Proof.
  induction 1 as [|e rest He _ IH]; intros parsed w.
  - simpl. now rewrite app_nil_r.
  - cbn [parseEntries forallb map]. rewrite He. cbn [negb].
    unfold entryOk at 1, entryRef at 1.
    destruct (Js.split "/" e) as [|p0 [|p1 [|p2 ps]]] eqn:E.
    + now destruct (split_not_nil "/" e).
    + apply split_no_sep in E. subst p0.
      destruct (Js.truthy (OWNER cfg)); cbn [negb andb].
      * specialize (IH (parsed ++ [mkRepoRef (OWNER cfg) e]) w).
        destruct (forallb (entryOk cfg) rest).
        -- rewrite IH. now rewrite <- app_assoc.
        -- exact IH.
      * repeat split. now exists (missingOwnerMsg e).
    + cbn [andb]. specialize (IH (parsed ++ [mkRepoRef p0 p1]) w).
      destruct (forallb (entryOk cfg) rest).
      * rewrite IH. now rewrite <- app_assoc.
      * exact IH.
    + cbn [andb]. repeat split. now exists (invalidSpecMsg e).
Qed.

Lemma entries_rejected :
  forallb (entryOk cfg) (REPOS_RAW cfg) = false <->
  (exists e, In e (REPOS_RAW cfg) /\ bareEntry e /\ OWNER cfg = "") \/
  (exists e, In e (REPOS_RAW cfg) /\ overSplit e).
Proof.
  split.
  - intro H.
    assert (Hex : existsb (fun e => negb (entryOk cfg e)) (REPOS_RAW cfg) = true).
    { clear -H. induction (REPOS_RAW cfg) as [|e l IH]; simpl in *; [discriminate|].
      destruct (entryOk cfg e); simpl in *; auto. }
    apply existsb_exists in Hex. destruct Hex as [e [Hin Hbad]].
    unfold entryOk in Hbad. unfold bareEntry, overSplit.
    destruct (Js.split "/" e) as [|p0 [|p1 [|p2 ps]]] eqn:E.
    + now destruct (split_not_nil "/" e).
    + left. exists e. rewrite E. repeat split; auto.
      apply truthy_false. now destruct (Js.truthy (OWNER cfg)).
    + discriminate.
    + right. exists e. rewrite E. split; auto. simpl. lia.
  - intros [[e [Hin [Hb Ho]]] | [e [Hin Hs]]].
    + apply not_true_is_false. intro Hall.
      rewrite forallb_forall in Hall. specialize (Hall e Hin).
      unfold entryOk, bareEntry in *.
      destruct (Js.split "/" e) as [|p0 [|p1 [|p2 ps]]]; simpl in Hb; try discriminate.
      rewrite Ho in Hall. discriminate.
    + apply not_true_is_false. intro Hall.
      rewrite forallb_forall in Hall. specialize (Hall e Hin).
      unfold entryOk, overSplit in *.
      destruct (Js.split "/" e) as [|p0 [|p1 [|p2 ps]]]; simpl in Hs; try discriminate; lia.
Qed.

End ResolverFacts.

Section DiscoveryFacts.

Context {W : Type}.
Variable remote : Remote W.
Variable cfg : Config.

Lemma discoverLoop_S (fuel : nat) (isOrg : bool) (page : Z)
    (repos : list RepoRef) (w : W) :
  discoverLoop remote cfg (S fuel) isOrg page repos w =
  match listForOrg remote (OWNER cfg) 100 page w with
  | (Ok d, w1) =>
      if isOrg then
        match d with
        | [] => (Done repos, w1, [ListForOrg (OWNER cfg) 100 page (Ok d)])
        | _ => prefixed [ListForOrg (OWNER cfg) 100 page (Ok d)]
                 (discoverLoop remote cfg fuel true (page + 1)
                    (repos ++ map toRef (filter (keepRepo cfg) d)) w1)
        end
      else userPage remote cfg fuel page repos
             [ListForOrg (OWNER cfg) 100 page (Ok d)] w1
  | (Err e, w1) =>
      if is404 (RemoteError e) then
        userPage remote cfg fuel page repos
          [ListForOrg (OWNER cfg) 100 page (Err e)] w1
      else (Throw (RemoteError e), w1, [ListForOrg (OWNER cfg) 100 page (Err e)])
  end.
Proof.
  cbn [discoverLoop]. unfold userPage, prefixed, bind, tryCatch, await, ret, throw.
  destruct (listForOrg remote (OWNER cfg) 100 page w) as [[d|e] w1].
  - destruct isOrg; cbn.
    + destruct d; [reflexivity|].
      now destruct (discoverLoop remote cfg fuel true (page + 1) _ w1) as [[o w2] ev2].
    + destruct (listForUser remote (OWNER cfg) 100 page w1) as [[u|e] w2]; [|reflexivity].
      destruct u; [reflexivity|].
      now destruct (discoverLoop remote cfg fuel false (page + 1) _ w2) as [[o w3] ev3].
  - destruct (is404 (RemoteError e)); cbn; [|reflexivity].
    destruct (listForUser remote (OWNER cfg) 100 page w1) as [[u|e2] w2]; [|reflexivity].
    destruct u; [reflexivity|].
    now destruct (discoverLoop remote cfg fuel false (page + 1) _ w2) as [[o w3] ev3].
Qed.

Lemma discoverLoop_result (fuel : nat) :
  forall (isOrg : bool) (page : Z) (repos : list RepoRef) (w : W) res,
    outcome (discoverLoop remote cfg fuel isOrg page repos w) = Done res ->
    res = repos ++
          map toRef (filter (keepRepo cfg)
            (pagesUsed isOrg (events (discoverLoop remote cfg fuel isOrg page repos w)))).
Proof.
  induction fuel as [|fuel IH]; intros isOrg page repos w res.
  - discriminate.
  - rewrite discoverLoop_S.
    assert (HU : forall before w1 pre,
      (forall rest, pagesUsed isOrg (before ++ rest) = pre ++ pagesUsed false rest) ->
      pre = [] ->
      outcome (userPage remote cfg fuel page repos before w1) = Done res ->
      res = repos ++ map toRef (filter (keepRepo cfg)
              (pagesUsed isOrg (events (userPage remote cfg fuel page repos before w1))))).
    { intros before w1 pre Hpre Hnil. subst pre. unfold userPage.
      destruct (listForUser remote (OWNER cfg) 100 page w1) as [[u|e] w2].
      - destruct u as [|r u].
        + cbn [outcome events fst snd]. intro H. inversion H.
          rewrite Hpre. cbn. now rewrite app_nil_r.
        + unfold prefixed. cbn [outcome events fst snd].
          intro H. rewrite (IH _ _ _ _ _ H) at 1.
          rewrite <- (app_assoc before), Hpre. cbn [app pagesUsed].
          now rewrite <- (app_assoc repos), <- map_app, <- filter_app.
      - cbn. discriminate. }
    destruct (listForOrg remote (OWNER cfg) 100 page w) as [[d|e] w1].
    + destruct isOrg.
      * destruct d as [|r d].
        -- cbn. intro H. inversion H. now rewrite app_nil_r.
        -- unfold prefixed. cbn [outcome events fst snd app pagesUsed].
           intro H. rewrite (IH _ _ _ _ _ H) at 1.
           now rewrite <- app_assoc, <- map_app, <- filter_app.
      * apply (HU _ _ []); auto.
    + destruct (is404 (RemoteError e)) eqn:E404.
      * apply (HU _ _ []); auto.
        intro rest. cbn [app pagesUsed]. now rewrite E404.
      * cbn. discriminate.
Qed.

End DiscoveryFacts.

Section ResolutionFacts.

Context {W : Type}.
Variable remote : Remote W.
Variable cfg : Config.

Lemma prefixed_nil {A} (r : Outcome A * W * list Event) : prefixed [] r = r.
Proof. now destruct r as [[o w] evs]. Qed.

Lemma userPage_no_script_error (fuel : nat) (page : Z) (repos : list RepoRef)
    (before : list Event) (w : W) (msg : string) :
  (forall isOrg page repos w,
     outcome (discoverLoop remote cfg fuel isOrg page repos w)
       <> Throw (ScriptError msg)) ->
  outcome (userPage remote cfg fuel page repos before w) <> Throw (ScriptError msg).
Proof.
  intro IH. unfold userPage.
  destruct (listForUser remote (OWNER cfg) 100 page w) as [[u|e] w1].
  - destruct u; [discriminate|]. apply IH.
  - discriminate.
Qed.

Lemma discoverLoop_no_script_error (fuel : nat) (msg : string) :
  forall isOrg page repos w,
    outcome (discoverLoop remote cfg fuel isOrg page repos w)
      <> Throw (ScriptError msg).
Proof.
  induction fuel as [|fuel IH]; intros isOrg page repos w.
  - discriminate.
  - rewrite discoverLoop_S.
    destruct (listForOrg remote (OWNER cfg) 100 page w) as [[d|e] w1].
    + destruct isOrg.
      * destruct d; [discriminate|]. apply IH.
      * now apply userPage_no_script_error.
    + destruct (is404 (RemoteError e)).
      * now apply userPage_no_script_error.
      * discriminate.
Qed.

Lemma autoDiscoverRepos_run (fuel : nat) (w : W) :
  autoDiscoverRepos remote cfg fuel w =
  if Js.truthy (OWNER cfg) then
    prefixed [Log ["Auto-discovering repositories for owner"; OWNER cfg]]
      (discoverLoop remote cfg fuel true 1 [] w)
  else (Throw (ScriptError ownerRequiredMsg), w, []).
Proof.
  unfold autoDiscoverRepos. destruct (Js.truthy (OWNER cfg)); [|reflexivity].
  cbn [negb]. unfold bind, log, emit, prefixed.
  now destruct (discoverLoop remote cfg fuel true 1 [] w) as [[o w1] evs].
Qed.

Lemma listRepos_auto (fuel : nat) (w : W) :
  REPOS_RAW cfg = [] ->
  listRepos remote cfg fuel w = autoDiscoverRepos remote cfg fuel w.
Proof.
  intro H. unfold listRepos, parseExplicitRepos. rewrite H.
  unfold bind, ret.
  now destruct (autoDiscoverRepos remote cfg fuel w) as [[o w1] evs].
Qed.

Lemma listRepos_explicit (fuel : nat) (w : W) :
  REPOS_RAW cfg <> [] ->
  if forallb (entryOk cfg) (REPOS_RAW cfg) then
    listRepos remote cfg fuel w =
      (Done (map (entryRef cfg) (REPOS_RAW cfg)), w, [])
  else
    failsWithConfigError (listRepos remote cfg fuel w) /\
    world (listRepos remote cfg fuel w) = w /\
    events (listRepos remote cfg fuel w) = [].
Proof.
  intro Hne.
  assert (Htr : Forall (fun e => Js.truthy e = true) (REPOS_RAW cfg)).
  { apply Forall_forall. intros e. apply REPOS_RAW_truthy. }
  pose proof (parseEntries_run (W:=W) cfg (REPOS_RAW cfg) Htr [] w) as Hrun.
  unfold listRepos, parseExplicitRepos.
  destruct (REPOS_RAW cfg) as [|e0 rest] eqn:E; [congruence|].
  destruct (forallb (entryOk cfg) (e0 :: rest)).
  - unfold bind. rewrite Hrun. cbn [app map]. reflexivity.
  - unfold bind. unfold failsWithConfigError in *.
    destruct (parseEntries cfg (e0 :: rest) [] w) as [[o w1] evs].
    cbn [outcome world events fst snd] in *.
    destruct Hrun as [[msg Ho] [Hw Hev]]. subst.
    repeat split. now exists msg.
Qed.

Lemma main_resolution_failure (fmt : NumFmt) (fuel : nat) (w : W) (e : Exn) :
  outcome (listRepos remote cfg fuel w) = Throw e ->
  main remote fmt cfg fuel w =
    (Throw e, world (listRepos remote cfg fuel w),
     events (listRepos remote cfg fuel w)).
Proof.
  unfold main. unfold bind at 1.
  destruct (listRepos remote cfg fuel w) as [[o w1] evs].
  cbn [outcome world events fst snd]. now intros ->.
Qed.

End ResolutionFacts.

(** C7. Resolution throws an error of the script's own exactly in the
    three rejected configurations (no explicit entry and no owner; a bare
    entry and no owner; an entry with more than one slash), and then the
    whole run ends with that error before any remote call or log line.
    With a non-empty explicit list the resolver makes no remote call and,
    unless it is one of the rejected configurations, returns the entries
    parsed in order as [owner/name], a bare name taking the configured
    owner. *)
Theorem resolution_configuration_errors
    {W : Type} (remote : Remote W) (fmt : NumFmt) (cfg : Config)
    (fuel : nat) (w : W) :
  (failsWithConfigError (listRepos remote cfg fuel w)
     <-> ConfigurationFailure cfg) /\
  (forall msg,
     outcome (listRepos remote cfg fuel w) = Throw (ScriptError msg) ->
     main remote fmt cfg fuel w = (Throw (ScriptError msg), w, [])) /\
  (REPOS_RAW cfg <> [] ->
     events (listRepos remote cfg fuel w) = [] /\
     world (listRepos remote cfg fuel w) = w /\
     (~ ConfigurationFailure cfg ->
      outcome (listRepos remote cfg fuel w)
        = Done (map (entryRef cfg) (REPOS_RAW cfg)))).
Proof.
  assert (Hiff : failsWithConfigError (listRepos remote cfg fuel w)
                 <-> ConfigurationFailure cfg).
  { unfold ConfigurationFailure.
    destruct (REPOS_RAW cfg) as [|e0 rest] eqn:E.
    - rewrite (listRepos_auto remote cfg fuel w E), autoDiscoverRepos_run.
      destruct (Js.truthy (OWNER cfg)) eqn:Ho.
      + split.
        * intros [msg Hm]. unfold prefixed in Hm. cbn in Hm.
          now destruct (discoverLoop_no_script_error remote cfg fuel msg true 1 [] w).
        * intros [[_ Hown] | [[e [[] _]] | [e [[] _]]]].
          rewrite Hown in Ho. discriminate.
      + split.
        * intros _. left. split; auto. now apply truthy_false.
        * intros _. now exists ownerRequiredMsg.
    - pose proof (listRepos_explicit remote cfg fuel w) as Hex.
      pose proof (entries_rejected cfg) as Hrej.
      rewrite E in Hex, Hrej.
      specialize (Hex ltac:(discriminate)).
      destruct (forallb (entryOk cfg) (e0 :: rest)).
      + split.
        * intros [msg Hm]. rewrite Hex in Hm. discriminate.
        * intros [[Hnil _] | Hbad]; [discriminate|].
          apply Hrej in Hbad. discriminate.
      + split.
        * intros _. right. now apply Hrej.
        * intros _. apply Hex. }
  split; [exact Hiff|]. split.
  - intros msg Hm.
    rewrite (main_resolution_failure remote cfg fmt fuel w _ Hm).
    assert (Hf : ConfigurationFailure cfg) by (apply Hiff; now exists msg).
    destruct (REPOS_RAW cfg) as [|e0 rest] eqn:E.
    + rewrite (listRepos_auto remote cfg fuel w E), autoDiscoverRepos_run in *.
      destruct (Js.truthy (OWNER cfg)); [|reflexivity].
      unfold prefixed in Hm. cbn in Hm.
      now destruct (discoverLoop_no_script_error remote cfg fuel msg true 1 [] w).
    + pose proof (listRepos_explicit remote cfg fuel w) as Hex.
      rewrite E in Hex. specialize (Hex ltac:(discriminate)).
      destruct (forallb (entryOk cfg) (e0 :: rest)).
      * rewrite Hex in Hm. discriminate.
      * destruct Hex as [_ [Hw Hev]]. now rewrite Hw, Hev.
  - intro Hne.
    pose proof (listRepos_explicit remote cfg fuel w Hne) as Hex.
    pose proof (entries_rejected cfg) as Hrej.
    destruct (forallb (entryOk cfg) (REPOS_RAW cfg)).
    + rewrite Hex. cbn. repeat split; auto.
    + destruct Hex as [Hf [Hw Hev]]. repeat split; auto.
      intro Hn. exfalso. apply Hn. apply Hiff. exact Hf.
Qed.




Section StickyFacts.

Context {W : Type}.
Variable remote : Remote W.
Variable cfg : Config.








End StickyFacts.



(** ** The monad's equations *)

Section MonadFacts.

Context {W : Type}.

Lemma bind_run {A B} (m : M W A) (k : A -> M W B) (w : W) :
  bind m k w =
  match m w with
  | (Done a, w1, ev1) => prefixed ev1 (k a w1)
  | (Throw e, w1, ev1) => (Throw e, w1, ev1)
  | (OutOfFuel, w1, ev1) => (OutOfFuel, w1, ev1)
  end.
Proof.
  unfold bind, prefixed. destruct (m w) as [[[a|e|] w1] ev1]; auto.
  now destruct (k a w1) as [[o w2] ev2].
Qed.

Lemma tryCatch_run {A} (m : M W A) (h : Exn -> M W A) (w : W) :
  tryCatch m h w =
  match m w with
  | (Throw e, w1, ev1) => prefixed ev1 (h e w1)
  | r => r
  end.
Proof.
  unfold tryCatch, prefixed. destruct (m w) as [[[a|e|] w1] ev1]; auto.
  now destruct (h e w1) as [[o w2] ev2].
Qed.

Lemma forEach_cons {A} (x : A) (xs : list A) (body : A -> M W unit) (w : W) :
  forEach (x :: xs) body w =
  match body x w with
  | (Done _, w1, ev1) => prefixed ev1 (forEach xs body w1)
  | (Throw e, w1, ev1) => (Throw e, w1, ev1)
  | (OutOfFuel, w1, ev1) => (OutOfFuel, w1, ev1)
  end.
Proof. cbn [forEach]. apply bind_run. Qed.

Lemma outcome_prefixed {A} (evs : list Event) (r : Outcome A * W * list Event) :
  outcome (prefixed evs r) = outcome r.
Proof. reflexivity. Qed.

Lemma events_prefixed {A} (evs : list Event) (r : Outcome A * W * list Event) :
  events (prefixed evs r) = evs ++ events r.
Proof. reflexivity. Qed.

(** *** Invariants of the events *)

Variable P : Event -> Prop.

Lemma evAll_ret {A} (a : A) : evAll P (ret (W:=W) a).
Proof. intro w. constructor. Qed.

Lemma evAll_throw {A} (e : Exn) : evAll P (throw (W:=W) (A:=A) e).
Proof. intro w. constructor. Qed.

Lemma evAll_outOfFuel {A} : evAll P (outOfFuel (W:=W) (A:=A)).
Proof. intro w. constructor. Qed.

Lemma evAll_emit (e : Event) : P e -> evAll P (emit (W:=W) e).
Proof. intros H w. repeat constructor. exact H. Qed.

Lemma evAll_await {A} (call : W -> Resp A * W) (ev : Resp A -> Event) :
  (forall r, P (ev r)) -> evAll P (await call ev).
Proof.
  intros H w. unfold await.
  destruct (call w) as [[a|e] w1]; repeat constructor; apply H.
Qed.

Lemma evAll_bind {A B} (m : M W A) (k : A -> M W B) :
  evAll P m -> (forall a, evAll P (k a)) -> evAll P (bind m k).
Proof.
  intros Hm Hk w. rewrite bind_run. specialize (Hm w).
  destruct (m w) as [[[a|e|] w1] ev1]; auto.
  rewrite events_prefixed. apply Forall_app. split; [exact Hm|apply Hk].
Qed.

Lemma evAll_tryCatch {A} (m : M W A) (h : Exn -> M W A) :
  evAll P m -> (forall e, evAll P (h e)) -> evAll P (tryCatch m h).
Proof.
  intros Hm Hh w. rewrite tryCatch_run. specialize (Hm w).
  destruct (m w) as [[[a|e|] w1] ev1]; auto.
  rewrite events_prefixed. apply Forall_app. split; [exact Hm|apply Hh].
Qed.

Lemma evAll_forEach {A} (xs : list A) (body : A -> M W unit) :
  (forall x, In x xs -> evAll P (body x)) -> evAll P (forEach xs body).
Proof.
  induction xs as [|x xs IH]; intro H; cbn [forEach].
  - apply evAll_ret.
  - apply evAll_bind; [apply H; now left|].
    intros _. apply IH. intros y Hy. apply H. now right.
Qed.

End MonadFacts.

(** *** Fuel and exceptions *)

Section OutcomeFacts.

Context {W : Type}.

Lemma total_ret {A} (a : A) : total (ret (W:=W) a).
Proof. intro w. discriminate. Qed.

Lemma total_throw {A} (e : Exn) : total (throw (W:=W) (A:=A) e).
Proof. intro w. discriminate. Qed.

Lemma total_emit (e : Event) : total (emit (W:=W) e).
Proof. intro w. discriminate. Qed.

Lemma total_await {A} (call : W -> Resp A * W) (ev : Resp A -> Event) :
  total (await call ev).
Proof. intro w. unfold await. destruct (call w) as [[a|e] w1]; discriminate. Qed.

Lemma total_bind {A B} (m : M W A) (k : A -> M W B) :
  total m -> (forall a, total (k a)) -> total (bind m k).
Proof.
  intros Hm Hk w. rewrite bind_run. specialize (Hm w).
  destruct (m w) as [[[a|e|] w1] ev1]; cbn in *; auto; try discriminate.
  apply Hk.
Qed.

Lemma total_tryCatch {A} (m : M W A) (h : Exn -> M W A) :
  total m -> (forall e, total (h e)) -> total (tryCatch m h).
Proof.
  intros Hm Hh w. rewrite tryCatch_run. specialize (Hm w).
  destruct (m w) as [[[a|e|] w1] ev1]; cbn in *; auto.
  apply Hh.
Qed.

Lemma total_forEach {A} (xs : list A) (body : A -> M W unit) :
  (forall x, total (body x)) -> total (forEach xs body).
Proof.
  intro H. induction xs as [|x xs IH]; cbn [forEach].
  - apply total_ret.
  - apply total_bind; auto.
Qed.

Lemma safe_ret {A} (a : A) : safe (ret (W:=W) a).
Proof. intros w e. discriminate. Qed.

Lemma safe_bind {A B} (m : M W A) (k : A -> M W B) :
  safe m -> (forall a, safe (k a)) -> safe (bind m k).
Proof.
  intros Hm Hk w e. rewrite bind_run. specialize (Hm w).
  destruct (m w) as [[[a|e'|] w1] ev1]; cbn in *; auto; try discriminate.
  - apply Hk.
  - now destruct (Hm e').
Qed.

Lemma safe_tryCatch {A} (m : M W A) (h : Exn -> M W A) :
  (forall e, safe (h e)) -> safe (tryCatch m h).
Proof.
  intros Hh w e. rewrite tryCatch_run.
  destruct (m w) as [[[a|e'|] w1] ev1]; cbn; try discriminate.
  apply Hh.
Qed.

Lemma safe_forEach {A} (xs : list A) (body : A -> M W unit) :
  (forall x, safe (body x)) -> safe (forEach xs body).
Proof.
  intro H. induction xs as [|x xs IH]; cbn [forEach].
  - apply safe_ret.
  - apply safe_bind; auto.
Qed.

End OutcomeFacts.

(** ** One iteration of each scan *)

Section StepFacts.

Context {W : Type}.
Variable remote : Remote W.
Variable fmt : NumFmt.
Variable cfg : Config.

Lemma remindReviewer_run (o repo : string) (pr : PullRequest)
    (reviews : list Review) (reviewer : string) (w : W) :
  remindReviewer remote fmt cfg o repo pr reviews reviewer w =
  match dateNow remote w with
  | (t, w1) =>
      let hours := hoursSince t (created_at pr) in
      let body := reviewerBody fmt cfg reviewer hours in
      if stale cfg reviews reviewer hours then
        if DRY_RUN cfg then
          (Done tt, w1, [Log [dryRunLine (number pr) body]])
        else
          match createComment remote o repo (number pr) body w1 with
          | (Ok a, w2) =>
              (Done tt, w2,
               [CreateComment o repo (number pr) body (Ok a);
                Log [("Commented reminder on PR #" ++ Js.showZ (number pr) ++
                      " for @" ++ reviewer)%string]])
          | (Err e, w2) =>
              (Throw (RemoteError e), w2,
               [CreateComment o repo (number pr) body (Err e)])
          end
      else (Done tt, w1, [])
  end.
Proof.
  unfold remindReviewer, stale, bind, now, await, log, emit, ret.
  destruct (dateNow remote w) as [t w1]. cbv zeta.
  destruct (reviewByUser reviews reviewer); cbn [andb]; [reflexivity|].
  destruct (Qgtb (hoursSince t (created_at pr)) (REVIEW_HOURS cfg)); [|reflexivity].
  destruct (DRY_RUN cfg); [reflexivity|].
  now destruct (createComment remote o repo (number pr) _ w1) as [[a|e] w2].
Qed.

Lemma checkBranch_run (o repo : string) (pr : PullRequest) (w : W) :
  checkBranch remote cfg o repo pr (head_ref pr) w =
  match getRef remote o repo (headRef pr) w with
  | (Err e, w1) => (Throw (RemoteError e), w1, [GetRef o repo (headRef pr) (Err e)])
  | (Ok a, w1) =>
      let body := branchBody (user_login pr) (head_ref pr) in
      if DRY_RUN cfg then
        (Done tt, w1,
         [GetRef o repo (headRef pr) (Ok a); Log [dryRunLine (number pr) body]])
      else
        match createComment remote o repo (number pr) body w1 with
        | (Ok c, w2) =>
            (Done tt, w2,
             [GetRef o repo (headRef pr) (Ok a);
              CreateComment o repo (number pr) body (Ok c);
              Log [("Commented branch reminder on PR #" ++
                    Js.showZ (number pr))%string]])
        | (Err e, w2) =>
            (Throw (RemoteError e), w2,
             [GetRef o repo (headRef pr) (Ok a);
              CreateComment o repo (number pr) body (Err e)])
        end
  end.
Proof.
  unfold checkBranch, headRef, bind, await, log, emit.
  destruct (getRef remote o repo _ w) as [[a|e] w1]; [|reflexivity].
  cbv zeta. destruct (DRY_RUN cfg); [reflexivity|].
  now destruct (createComment remote o repo (number pr) _ w1) as [[c|e] w2].
Qed.

Lemma onRefError_run (branchName : string) (e : RequestError) (w : W) :
  onRefError branchName (RemoteError e) w =
    (Done tt, w, refErrorLog branchName e).
Proof.
  unfold onRefError, refErrorLog.
  now destruct (is404 (RemoteError e)).
Qed.

Lemma cleanupPr_run (o repo : string) (since : Z) (pr : PullRequest)
    (any : bool) (w : W) :
  cleanupPr remote cfg o repo since pr any w =
  if withinWindow since pr then
    if isMerged pr then
      match getRef remote o repo (headRef pr) w with
      | (Err e, w1) =>
          (Done true, w1,
           GetRef o repo (headRef pr) (Err e) :: refErrorLog (head_ref pr) e)
      | (Ok a, w1) =>
          let body := branchBody (user_login pr) (head_ref pr) in
          if DRY_RUN cfg then
            (Done true, w1,
             [GetRef o repo (headRef pr) (Ok a);
              Log [dryRunLine (number pr) body]])
          else
            match createComment remote o repo (number pr) body w1 with
            | (Ok c, w2) =>
                (Done true, w2,
                 [GetRef o repo (headRef pr) (Ok a);
                  CreateComment o repo (number pr) body (Ok c);
                  Log [("Commented branch reminder on PR #" ++
                        Js.showZ (number pr))%string]])
            | (Err e, w2) =>
                (Done true, w2,
                 [GetRef o repo (headRef pr) (Ok a);
                  CreateComment o repo (number pr) body (Err e)]
                 ++ refErrorLog (head_ref pr) e)
            end
      end
    else (Done true, w, [])
  else (Done any, w, []).
Proof.
  unfold cleanupPr, withinWindow, isMerged.
  destruct (updated_at pr <? since); [reflexivity|]. cbn [negb].
  destruct (merged_at pr); [|reflexivity].
  rewrite bind_run, tryCatch_run, checkBranch_run.
  destruct (getRef remote o repo (headRef pr) w) as [[a|e] w1].
  - cbv zeta. destruct (DRY_RUN cfg); [reflexivity|].
    destruct (createComment remote o repo (number pr) _ w1) as [[c|e] w2];
      [reflexivity|].
    rewrite onRefError_run. unfold prefixed, ret.
    cbn [outcome world events fst snd]. now rewrite app_nil_r.
  - rewrite onRefError_run. unfold prefixed, ret.
    cbn [outcome world events fst snd]. now rewrite app_nil_r.
Qed.

Lemma cleanupPr_done (o repo : string) (since : Z) (pr : PullRequest)
    (any : bool) (w : W) :
  outcome (cleanupPr remote cfg o repo since pr any w)
    = Done (if withinWindow since pr then true else any).
Proof.
  rewrite cleanupPr_run.
  destruct (withinWindow since pr); [|reflexivity].
  destruct (isMerged pr); [|reflexivity].
  destruct (getRef remote o repo (headRef pr) w) as [[a|e] w1]; [|reflexivity].
  cbv zeta. destruct (DRY_RUN cfg); [reflexivity|].
  now destruct (createComment remote o repo (number pr) _ w1) as [[c|e] w2].
Qed.

Lemma cleanupPage_cons (o repo : string) (since : Z) (pr : PullRequest)
    (rest : list PullRequest) (any : bool) (w : W) :
  cleanupPage remote cfg o repo since (pr :: rest) any w =
  prefixed (events (cleanupPr remote cfg o repo since pr any w))
    (cleanupPage remote cfg o repo since rest
       (if withinWindow since pr then true else any)
       (world (cleanupPr remote cfg o repo since pr any w))).
Proof.
  cbn [cleanupPage]. rewrite bind_run.
  pose proof (cleanupPr_done o repo since pr any w) as Hd.
  destruct (cleanupPr remote cfg o repo since pr any w) as [[out w1] ev1].
  cbn [outcome world events fst snd] in *. now subst out.
Qed.

Lemma cleanupPage_done (o repo : string) (since : Z) (prs : list PullRequest) :
  forall (any : bool) (w : W),
    outcome (cleanupPage remote cfg o repo since prs any w)
      = Done (any || existsb (withinWindow since) prs).
Proof.
  induction prs as [|pr rest IH]; intros any w.
  - cbn. now rewrite orb_false_r.
  - rewrite cleanupPage_cons, outcome_prefixed, IH. cbn [existsb].
    now destruct (withinWindow since pr), any.
Qed.

Lemma cleanupPage_outside (o repo : string) (since : Z) (prs : list PullRequest) :
  existsb (withinWindow since) prs = false ->
  forall (any : bool) (w : W),
    cleanupPage remote cfg o repo since prs any w = (Done any, w, []).
Proof.
  induction prs as [|pr rest IH]; intros Hout any w; [reflexivity|].
  cbn [existsb] in Hout. apply orb_false_elim in Hout. destruct Hout as [Hpr Hrest].
  rewrite cleanupPage_cons, cleanupPr_run, Hpr.
  cbn [events world fst snd]. now rewrite (IH Hrest).
Qed.

Lemma cleanupLoop_S (fuel : nat) (o repo : string) (since page : Z) (w : W) :
  cleanupLoop remote cfg (S fuel) o repo since page w =
  match pullsList remote (closedQuery o repo page) w with
  | (Err e, w1) =>
      (Throw (RemoteError e), w1, [PullsList (closedQuery o repo page) (Err e)])
  | (Ok prs, w1) =>
      let scan := cleanupPage remote cfg o repo since prs false w1 in
      if existsb (withinWindow since) prs then
        prefixed (PullsList (closedQuery o repo page) (Ok prs) :: events scan)
          (cleanupLoop remote cfg fuel o repo since (page + 1) (world scan))
      else (Done tt, w1, [PullsList (closedQuery o repo page) (Ok prs)])
  end.
Proof.
  cbn [cleanupLoop]. rewrite bind_run. unfold await.
  destruct (pullsList remote (closedQuery o repo page) w) as [[prs|e] w1];
    [|reflexivity].
  destruct prs as [|pr rest]; [reflexivity|].
  remember (pr :: rest) as prs eqn:Eprs. cbv zeta.
  rewrite bind_run.
  pose proof (cleanupPage_done o repo since prs false w1) as Hd.
  pose proof (cleanupPage_outside o repo since prs) as Hout.
  destruct (existsb (withinWindow since) prs).
  - destruct (cleanupPage remote cfg o repo since prs false w1) as [[out w2] ev2].
    cbn [outcome world events fst snd orb] in *. subst out. cbn [negb].
    unfold prefixed. cbn [outcome world events fst snd app].
    reflexivity.
  - rewrite (Hout eq_refl). reflexivity.
Qed.

End StepFacts.

(** ** The reviewer decision *)

Lemma reviewByUser_none (reviews : list Review) (reviewer : string) :
  reviewByUser reviews reviewer = None <-> ~ hasReview reviews reviewer.
Proof.
  unfold reviewByUser, hasReview. split.
  - intros Hnone [r [Hin Hu]].
    pose proof (find_none _ _ Hnone r Hin) as Hf. cbn in Hf.
    rewrite Hu, String.eqb_refl in Hf. discriminate.
  - intro Hno.
    destruct (find _ reviews) as [r|] eqn:Hf; [|reflexivity].
    apply find_some in Hf. destruct Hf as [Hin Hm].
    exfalso. apply Hno. exists r. split; [exact Hin|].
    destruct (user r) as [login|]; [|discriminate].
    apply String.eqb_eq in Hm. now subst.
Qed.

Lemma Qgtb_lt (x y : Q) : Qgtb x y = true <-> (y < x)%Q.
Proof.
  unfold Qgtb. rewrite negb_true_iff. split.
  - intro H. apply Qnot_le_lt. intro Hle.
    apply Qle_bool_iff in Hle. congruence.
  - intro H. apply not_true_is_false. intro Hle.
    apply Qle_bool_iff in Hle. now apply Qlt_not_le in H.
Qed.

Lemma stale_iff (cfg : Config) (reviews : list Review) (reviewer : string)
    (hours : Q) :
  stale cfg reviews reviewer hours = true <->
  ~ hasReview reviews reviewer /\ (REVIEW_HOURS cfg < hours)%Q.
Proof.
  unfold stale. rewrite andb_true_iff, Qgtb_lt, <- reviewByUser_none.
  destruct (reviewByUser reviews reviewer); intuition congruence.
Qed.

Lemma fetched_app (a b : list Event) : fetched (a ++ b) = fetched a ++ fetched b.
Proof.
  induction a as [|ev a IH]; [reflexivity|].
  cbn [app]. destruct ev; cbn [fetched]; auto.
  destruct r; auto. now rewrite IH, app_assoc.
Qed.


Section ReviewerScanFacts.

Context {W : Type}.
Variable remote : Remote W.
Variable fmt : NumFmt.
Variable cfg : Config.



Lemma remindPr_run o repo pr (w : W) :
  remindPr remote fmt cfg o repo pr w =
  match requested_reviewers pr with
  | [] => (Done tt, w, [])
  | _ =>
      match listReviews remote o repo (number pr) w with
      | (Ok reviews, w1) =>
          prefixed [ListReviews o repo (number pr) (Ok reviews)]
            (forEach (requested_reviewers pr)
               (remindReviewer remote fmt cfg o repo pr reviews) w1)
      | (Err e, w1) =>
          (Throw (RemoteError e), w1, [ListReviews o repo (number pr) (Err e)])
      end
  end.
Proof.
  unfold remindPr. destruct (requested_reviewers pr) as [|r rs]; [reflexivity|].
  rewrite bind_run. unfold await.
  now destruct (listReviews remote o repo (number pr) w) as [[reviews|e] w1].
Qed.







End ReviewerScanFacts.


(** ** The branch decision *)

Section BranchFacts.

Context {W : Type}.
Variable remote : Remote W.
Variable cfg : Config.





End BranchFacts.



(** C10. In live mode, when the branch of a merged pull request within
    the window exists and the comment call is refused, the refusal lands
    in the [catch] of the ref lookup: what follows the refused call is
    what follows a refused lookup with the same error, namely nothing for
    a not-found and one line "Error checking ref" otherwise.  The
    iteration returns and the scan goes on with the rest of the page. *)
Theorem comment_failure_handled_as_ref_failure
    {W : Type} (remote : Remote W) (cfg : Config)
    (o repo : string) (since : Z) (pr : PullRequest)
    (rest : list PullRequest) (any : bool) (w w1 w2 : W) (a : unit)
    (e : RequestError) :
  DRY_RUN cfg = false ->
  withinWindow since pr = true ->
  isMerged pr = true ->
  getRef remote o repo (headRef pr) w = (Ok a, w1) ->
  createComment remote o repo (number pr)
    (branchBody (user_login pr) (head_ref pr)) w1 = (Err e, w2) ->
  let run := cleanupPr remote cfg o repo since pr any w in
  let body := branchBody (user_login pr) (head_ref pr) in
  run = (Done true, w2,
         [GetRef o repo (headRef pr) (Ok a);
          CreateComment o repo (number pr) body (Err e)]
         ++ refErrorLog (head_ref pr) e) /\
  (forall w' w'',
     getRef remote o repo (headRef pr) w' = (Err e, w'') ->
     cleanupPr remote cfg o repo since pr any w' =
       (Done true, w'',
        GetRef o repo (headRef pr) (Err e) :: refErrorLog (head_ref pr) e)) /\
  (status e = Some 404 -> refErrorLog (head_ref pr) e = []) /\
  (is404 (RemoteError e) = false ->
   refErrorLog (head_ref pr) e =
     [Log ["Error checking ref"; head_ref pr; statusOrMessage (RemoteError e)]]) /\
  cleanupPage remote cfg o repo since (pr :: rest) any w =
    prefixed (events run)
      (cleanupPage remote cfg o repo since rest true w2).
Proof.
  intros Hlive Hwin Hmerged Href Hpost run body.
  assert (Hrun : run = (Done true, w2,
         [GetRef o repo (headRef pr) (Ok a);
          CreateComment o repo (number pr) body (Err e)]
         ++ refErrorLog (head_ref pr) e)).
  { subst run body. rewrite cleanupPr_run, Hwin, Hmerged, Href.
    cbv zeta. now rewrite Hlive, Hpost. }
  split; [exact Hrun|]. split; [|split; [|split]].
  - intros w' w'' Href'. now rewrite cleanupPr_run, Hwin, Hmerged, Href'.
  - intro Hs. unfold refErrorLog, is404. now rewrite Hs.
  - intro Hn. unfold refErrorLog. now rewrite Hn.
  - rewrite cleanupPage_cons, Hwin. fold run. now rewrite Hrun.
Qed.

Lemma comment_failure_handled_as_ref_failure_witness :
  cleanupPr (Demo.remoteOf Examples.lockedSite) Examples.liveCfg
    "acme" "web" Examples.since14 Examples.pr42 false tt =
  (Done true, tt,
   [GetRef "acme" "web" "heads/feature-x" (Ok tt);
    CreateComment "acme" "web" 42
      (branchBody "alice" "feature-x") (Err Demo.notFound)]).
Proof.
  exact (proj1
    (comment_failure_handled_as_ref_failure
       (Demo.remoteOf Examples.lockedSite) Examples.liveCfg
       "acme" "web" Examples.since14 Examples.pr42 [] false tt tt tt tt
       Demo.notFound eq_refl eq_refl eq_refl eq_refl eq_refl)).
Defined.

(** ** The window of the branch scan *)

Section WindowFacts.

Context {W : Type}.
Variable remote : Remote W.
Variable cfg : Config.

Lemma withinWindow_le (since : Z) (pr : PullRequest) :
  withinWindow since pr = true <-> since <= updated_at pr.
Proof. unfold withinWindow. rewrite negb_true_iff, Z.ltb_ge. reflexivity. Qed.

Lemma refErrorLog_no_ref (branchName : string) (e : RequestError) o repo ref r :
  ~ In (GetRef o repo ref r) (refErrorLog branchName e).
Proof.
  unfold refErrorLog. destruct (is404 (RemoteError e)); cbn; [tauto|].
  intros [H|[]]. discriminate.
Qed.

Lemma cleanupPr_refs (o repo : string) (since : Z) (pr : PullRequest)
    (any : bool) (w : W) o' repo' ref r :
  In (GetRef o' repo' ref r) (events (cleanupPr remote cfg o repo since pr any w)) ->
  ref = headRef pr /\ isMerged pr = true /\ since <= updated_at pr.
Proof.
  rewrite cleanupPr_run.
  destruct (withinWindow since pr) eqn:Hwin; [|intros []].
  destruct (isMerged pr) eqn:Hm; [|intros []].
  apply withinWindow_le in Hwin.
  assert (Hhead : forall x evs,
            In (GetRef o' repo' ref r) (GetRef o repo (headRef pr) x :: evs) ->
            ~ In (GetRef o' repo' ref r) evs ->
            ref = headRef pr /\ true = true /\ since <= updated_at pr).
  { intros x evs [Heq|Hin] Hno; [|contradiction]. inversion Heq. auto. }
  destruct (getRef remote o repo (headRef pr) w) as [[a|e] w1].
  - cbv zeta. destruct (DRY_RUN cfg).
    + intro H. apply (Hhead _ _ H). intros [Hx|[]]. discriminate.
    + destruct (createComment remote o repo (number pr) _ w1) as [[c|e] w2];
        intro H; apply (Hhead _ _ H).
      * intros [Hx|[Hx|[]]]; discriminate.
      * intros [Hx|Hx]; [discriminate|]. now apply refErrorLog_no_ref in Hx.
  - intro H. apply (Hhead _ _ H). apply refErrorLog_no_ref.
Qed.

Lemma cleanupPage_refs (o repo : string) (since : Z) (prs : list PullRequest) :
  forall (any : bool) (w : W) o' repo' ref r,
    In (GetRef o' repo' ref r)
       (events (cleanupPage remote cfg o repo since prs any w)) ->
    exists pr, In pr prs /\ ref = headRef pr /\
               isMerged pr = true /\ since <= updated_at pr.
Proof.
  induction prs as [|pr rest IH]; intros any w o' repo' ref r.
  - intros [].
  - rewrite cleanupPage_cons, events_prefixed, in_app_iff. intros [H|H].
    + apply cleanupPr_refs in H. exists pr. split; [now left|exact H].
    + apply IH in H. destruct H as [p [Hin Hp]].
      exists p. split; [now right|exact Hp].
Qed.

Lemma cleanupPage_fetched (o repo : string) (since : Z) (prs : list PullRequest) :
  forall (any : bool) (w : W),
    fetched (events (cleanupPage remote cfg o repo since prs any w)) = [].
Proof.
  induction prs as [|pr rest IH]; intros any w; [reflexivity|].
  rewrite cleanupPage_cons, events_prefixed, fetched_app, IH, app_nil_r.
  rewrite cleanupPr_run.
  destruct (withinWindow since pr); [|reflexivity].
  destruct (isMerged pr); [|reflexivity].
  assert (Hlog : forall e, fetched (refErrorLog (head_ref pr) e) = []).
  { intro e. unfold refErrorLog. now destruct (is404 (RemoteError e)). }
  destruct (getRef remote o repo (headRef pr) w) as [[a|e] w1].
  - cbv zeta. destruct (DRY_RUN cfg); [reflexivity|].
    destruct (createComment remote o repo (number pr) _ w1) as [[c|e] w2];
      [reflexivity|].
    cbn [events snd app fetched]. apply Hlog.
  - cbn [events snd fetched]. apply Hlog.
Qed.

Lemma cleanupLoop_refs (fuel : nat) (o repo : string) (since : Z) :
  forall (page : Z) (w : W),
    refChecksWithinWindow since
      (events (cleanupLoop remote cfg fuel o repo since page w)).
Proof.
  induction fuel as [|fuel IH]; intros page w o' repo' ref r.
  - intros [].
  - rewrite cleanupLoop_S.
    destruct (pullsList remote (closedQuery o repo page) w) as [[prs|e] w1].
    + cbv zeta. destruct (existsb (withinWindow since) prs).
      * rewrite events_prefixed. cbn [app fetched].
        rewrite fetched_app, cleanupPage_fetched. cbn [app].
        intros [H|H]; [discriminate|].
        apply in_app_iff in H. destruct H as [H|H].
        -- apply cleanupPage_refs in H. destruct H as [pr [Hin Hp]].
           exists pr. split; [apply in_or_app; now left|exact Hp].
        -- apply IH in H. destruct H as [pr [Hin Hp]].
           exists pr. split; [apply in_or_app; now right|exact Hp].
      * intros [H|[]]. discriminate.
    + intros [H|[]]. discriminate.
Qed.

Lemma notifyUndeletedBranches_run (fuel : nat) (o repo : string) (w : W) :
  notifyUndeletedBranches remote cfg fuel o repo w =
  prefixed
    [Log [("[" ++ o ++ "/" ++ repo ++
           "] Checking merged PRs for undeleted branches (lookback " ++
           Js.showZ (MAX_CLOSED_LOOKBACK_DAYS cfg) ++ "d)")%string]]
    (cleanupLoop remote cfg fuel o repo
       (fst (dateNow remote w) - MAX_CLOSED_LOOKBACK_DAYS cfg * 86400000) 1
       (snd (dateNow remote w))).
Proof.
  unfold notifyUndeletedBranches. rewrite bind_run. unfold log, emit.
  f_equal. rewrite bind_run. unfold now.
  destruct (dateNow remote w) as [t w1]. cbn [fst snd].
  apply prefixed_nil.
Qed.

End WindowFacts.

(** C2. In the branch scan of a repository, with [since] the clock read
    at its start minus the look-back days, every ref lookup is the lookup
    of the head branch of a merged pull request of a received page that
    was updated at or after [since]: the iteration of an older pull
    request does nothing.  A page without a pull request within the
    window ends the scan with no further request; a page with at least
    one is followed, after its own lookups, by the request for the next
    page. *)
Theorem cleanup_window_and_pagination
    {W : Type} (remote : Remote W) (cfg : Config) (o repo : string) :
  (forall fuel w,
     refChecksWithinWindow
       (fst (dateNow remote w) - MAX_CLOSED_LOOKBACK_DAYS cfg * 86400000)
       (events (notifyUndeletedBranches remote cfg fuel o repo w))) /\
  (forall since pr any w,
     updated_at pr < since ->
     cleanupPr remote cfg o repo since pr any w = (Done any, w, [])) /\
  (forall since fuel page w prs w1,
     pullsList remote (closedQuery o repo page) w = (Ok prs, w1) ->
     existsb (withinWindow since) prs = false ->
     cleanupLoop remote cfg (S fuel) o repo since page w =
       (Done tt, w1, [PullsList (closedQuery o repo page) (Ok prs)])) /\
  (forall since fuel page w prs w1,
     pullsList remote (closedQuery o repo page) w = (Ok prs, w1) ->
     existsb (withinWindow since) prs = true ->
     let scan := cleanupPage remote cfg o repo since prs false w1 in
     exists rest,
       events (cleanupLoop remote cfg (S (S fuel)) o repo since page w) =
         PullsList (closedQuery o repo page) (Ok prs) :: events scan ++
         PullsList (closedQuery o repo (page + 1))
           (fst (pullsList remote (closedQuery o repo (page + 1)) (world scan)))
         :: rest).
Proof.
  split; [|split; [|split]].
  - intros fuel w o' repo' ref r.
    rewrite notifyUndeletedBranches_run, events_prefixed. cbn [app fetched].
    intros [H|H]; [discriminate|].
    now apply cleanupLoop_refs in H.
  - intros since pr any w Hold. rewrite cleanupPr_run.
    unfold withinWindow. apply Z.ltb_lt in Hold. now rewrite Hold.
  - intros since fuel page w prs w1 Hpage Hout.
    now rewrite cleanupLoop_S, Hpage, Hout.
  - intros since fuel page w prs w1 Hpage Hin scan.
    rewrite cleanupLoop_S, Hpage. cbv zeta. rewrite Hin.
    rewrite events_prefixed. fold scan. cbn [app].
    rewrite cleanupLoop_S.
    destruct (pullsList remote (closedQuery o repo (page + 1)) (world scan))
      as [[prs2|e] w2]; cbn [fst].
    + cbv zeta. destruct (existsb (withinWindow since) prs2).
      * rewrite events_prefixed. cbn [app]. now eexists.
      * now eexists.
    + now eexists.
Qed.

(** ** Dry run *)

Lemma evAll_now {W : Type} (remote : Remote W) (P : Event -> Prop) :
  evAll P (now remote).
Proof. intro w. unfold now. destruct (dateNow remote w). constructor. Qed.

Ltac ev_step :=
  lazymatch goal with
  | |- evAll _ (ret _) => apply evAll_ret
  | |- evAll _ (throw _) => apply evAll_throw
  | |- evAll _ outOfFuel => apply evAll_outOfFuel
  | |- evAll _ (now _) => apply evAll_now
  | |- evAll _ (emit _) => apply evAll_emit
  | |- evAll _ (log _) => apply evAll_emit
  | |- evAll _ (await _ _) => apply evAll_await
  | |- evAll _ (bind _ _) => apply evAll_bind
  | |- evAll _ (tryCatch _ _) => apply evAll_tryCatch
  | |- evAll _ (forEach _ _) => apply evAll_forEach
  | |- evAll _ (if ?b then _ else _) => destruct b
  | |- evAll _ (match ?x with _ => _ end) => destruct x
  end.

Ltac ev_auto := repeat (intros; ev_step); intros; try reflexivity.



Section DryRunFacts.

Context {W : Type}.
Variable remote : Remote W.
Variable fmt : NumFmt.
Variable cfg : Config.

Let quiet (ev : Event) : Prop := isComment ev = false.

Lemma parseEntries_quiet (entries : list string) :
  forall parsed, evAll quiet (parseEntries (W:=W) cfg entries parsed).
Proof.
  induction entries as [|e rest IH]; intro parsed; cbn [parseEntries].
  - apply evAll_ret.
  - destruct (negb (Js.truthy e)); [apply IH|].
    destruct (Js.split "/" e) as [|p0 [|p1 [|p2 ps]]]; ev_auto; apply IH.
Qed.

Lemma discoverLoop_quiet (fuel : nat) :
  forall isOrg page repos, evAll quiet (discoverLoop remote cfg fuel isOrg page repos).
Proof.
  induction fuel as [|fuel IH]; intros isOrg page repos; cbn [discoverLoop].
  - apply evAll_outOfFuel.
  - ev_auto; apply IH.
Qed.

Lemma listRepos_quiet (fuel : nat) : evAll quiet (listRepos remote cfg fuel).
Proof.
  unfold listRepos, parseExplicitRepos, autoDiscoverRepos.
  ev_auto; first [apply parseEntries_quiet | apply discoverLoop_quiet].
Qed.

Hypothesis dry : DRY_RUN cfg = true.

Lemma remindReviewer_quiet o repo pr reviews reviewer :
  evAll quiet (remindReviewer remote fmt cfg o repo pr reviews reviewer).
Proof.
  unfold remindReviewer. rewrite dry. ev_auto.
Qed.

Lemma remindPr_quiet o repo pr :
  evAll quiet (remindPr remote fmt cfg o repo pr).
Proof.
  unfold remindPr. ev_auto. apply remindReviewer_quiet.
Qed.

Lemma reviewerLoop_quiet (fuel : nat) o repo :
  forall page, evAll quiet (reviewerLoop remote fmt cfg fuel o repo page).
Proof.
  induction fuel as [|fuel IH]; intro page; cbn [reviewerLoop].
  - apply evAll_outOfFuel.
  - ev_auto; first [apply IH | apply remindPr_quiet].
Qed.

Lemma cleanupPr_quiet o repo since pr any :
  evAll quiet (cleanupPr remote cfg o repo since pr any).
Proof.
  unfold cleanupPr, checkBranch, onRefError. rewrite dry. ev_auto.
Qed.

Lemma cleanupPage_quiet o repo since prs :
  forall any, evAll quiet (cleanupPage remote cfg o repo since prs any).
Proof.
  induction prs as [|pr rest IH]; intro any; cbn [cleanupPage].
  - apply evAll_ret.
  - apply evAll_bind; [apply cleanupPr_quiet|]. intro a. apply IH.
Qed.

Lemma cleanupLoop_quiet (fuel : nat) o repo since :
  forall page, evAll quiet (cleanupLoop remote cfg fuel o repo since page).
Proof.
  induction fuel as [|fuel IH]; intro page; cbn [cleanupLoop].
  - apply evAll_outOfFuel.
  - ev_auto; first [apply IH | apply cleanupPage_quiet].
Qed.

Lemma main_quiet (fuel : nat) : evAll quiet (main remote fmt cfg fuel).
Proof.
  unfold main. ev_auto; try apply listRepos_quiet.
  unfold processRepo, scanRepo, notifyInactiveReviewers, notifyUndeletedBranches.
  ev_auto; first [apply reviewerLoop_quiet | apply cleanupLoop_quiet].
Qed.

End DryRunFacts.





(** ** Failed comment calls in the reviewer scan *)

Section FatalFacts.

Context {W : Type}.

Let fine (ev : Event) : Prop := isFailedComment ev = false.

Lemma fatal_quiet {A} (m : M W A) : evAll fine m -> fatalAll m.
Proof. intros H w. left. apply H. Qed.

Lemma fatalAll_bind {A B} (m : M W A) (k : A -> M W B) :
  fatalAll m -> (forall a, fatalAll (k a)) -> fatalAll (bind m k).
Proof.
  intros Hm Hk w. rewrite bind_run. specialize (Hm w).
  unfold failedPostIsFatal in *.
  destruct (m w) as [[[a|e|] w1] ev1]; cbn [events outcome fst snd] in Hm.
  - rewrite events_prefixed, outcome_prefixed.
    assert (Hev1 : Forall fine ev1).
    { destruct Hm as [Hm|[pre [o [repo [n [body [e [_ [_ Hthrow]]]]]]]]];
        [exact Hm|discriminate]. }
    destruct (Hk a w1) as [Hfine|[pre [o [repo [n [body [e [Hev [Hpre Hout]]]]]]]]].
    + left. apply Forall_app. now split.
    + right. exists (ev1 ++ pre), o, repo, n, body, e.
      rewrite Hev, app_assoc. repeat split; auto.
      apply Forall_app. now split.
  - destruct Hm as [Hm|[pre [o [repo [n [body [e' [Hev [Hpre Hout]]]]]]]]].
    + now left.
    + right. exists pre, o, repo, n, body, e'. cbn in *.
      repeat split; auto. congruence.
  - destruct Hm as [Hm|[pre [o [repo [n [body [e' [_ [_ Hout]]]]]]]]];
      [now left|discriminate].
Qed.

Lemma fatalAll_forEach {A} (xs : list A) (body : A -> M W unit) :
  (forall x, fatalAll (body x)) -> fatalAll (forEach xs body).
Proof.
  intro H. induction xs as [|x xs IH]; cbn [forEach].
  - apply fatal_quiet. apply evAll_ret.
  - apply fatalAll_bind; auto.
Qed.

Variable remote : Remote W.
Variable fmt : NumFmt.
Variable cfg : Config.

Lemma remindReviewer_fatal o repo pr reviews reviewer :
  fatalAll (remindReviewer remote fmt cfg o repo pr reviews reviewer).
Proof.
  intro w. rewrite remindReviewer_run.
  destruct (dateNow remote w) as [t w1]. cbv zeta.
  destruct (stale cfg reviews reviewer _); [|left; constructor].
  destruct (DRY_RUN cfg); [left; repeat constructor|].
  destruct (createComment remote o repo (number pr) _ w1) as [[a|e] w2].
  - left. repeat constructor.
  - right. exists []. repeat eexists. constructor.
Qed.

Lemma remindPr_fatal o repo pr : fatalAll (remindPr remote fmt cfg o repo pr).
Proof.
  unfold remindPr. destruct (requested_reviewers pr) as [|r rs].
  - apply fatal_quiet. apply evAll_ret.
  - apply fatalAll_bind.
    + apply fatal_quiet. apply evAll_await. reflexivity.
    + intro reviews. apply fatalAll_forEach. intro x. apply remindReviewer_fatal.
Qed.

Lemma reviewerLoop_fatal (fuel : nat) o repo :
  forall page, fatalAll (reviewerLoop remote fmt cfg fuel o repo page).
Proof.
  induction fuel as [|fuel IH]; intro page; cbn [reviewerLoop].
  - apply fatal_quiet. apply evAll_outOfFuel.
  - apply fatalAll_bind.
    + apply fatal_quiet. apply evAll_await. reflexivity.
    + intro prs. destruct prs as [|p ps].
      * apply fatal_quiet. apply evAll_ret.
      * apply fatalAll_bind; [|intros _; apply IH].
        apply fatalAll_forEach. intro x. apply remindPr_fatal.
Qed.

Lemma notifyInactiveReviewers_fatal (fuel : nat) o repo :
  fatalAll (notifyInactiveReviewers remote fmt cfg fuel o repo).
Proof.
  unfold notifyInactiveReviewers. apply fatalAll_bind.
  - apply fatal_quiet. apply evAll_emit. reflexivity.
  - intros _. apply reviewerLoop_fatal.
Qed.

(** *** The boundary around a repository *)

Lemma processRepo_run (fuel : nat) (r : RepoRef) (w : W) :
  processRepo remote fmt cfg fuel r w =
  match scanRepo remote fmt cfg fuel r w with
  | (Throw e, w1, ev1) => (Done tt, w1, ev1 ++ [repoErrorLine r e])
  | run => run
  end.
Proof.
  unfold processRepo. rewrite tryCatch_run.
  now destruct (scanRepo remote fmt cfg fuel r w) as [[[a|e|] w1] ev1].
Qed.

Lemma scanRepo_reviewer_throw (fuel : nat) (r : RepoRef) (w w1 : W) e evs :
  notifyInactiveReviewers remote fmt cfg fuel (owner r) (name r) w
    = (Throw e, w1, evs) ->
  scanRepo remote fmt cfg fuel r w = (Throw e, w1, evs).
Proof. intro H. unfold scanRepo. now rewrite bind_run, H. Qed.

Lemma processRepo_safe (fuel : nat) (r : RepoRef) :
  safe (processRepo remote fmt cfg fuel r).
Proof.
  intros w e. rewrite processRepo_run.
  now destruct (scanRepo remote fmt cfg fuel r w) as [[[a|e'|] w1] ev1].
Qed.

Lemma processRepo_done (fuel : nat) (r : RepoRef) (w : W) (u : unit) :
  outcome (processRepo remote fmt cfg fuel r w) = Done u -> 
  forall rest,
    forEach (r :: rest) (processRepo remote fmt cfg fuel) w =
    prefixed (events (processRepo remote fmt cfg fuel r w))
      (forEach rest (processRepo remote fmt cfg fuel)
         (world (processRepo remote fmt cfg fuel r w))).
Proof.
  intros H rest. rewrite forEach_cons.
  destruct (processRepo remote fmt cfg fuel r w) as [[[a|e'|] w1] ev1];
    cbn in H; try discriminate. reflexivity.
Qed.

End FatalFacts.

(** C4 (as the code has it). In live mode a refused comment call is
    handled differently by the two scans.  In the reviewer scan it is
    the last event of the scan, which throws the refusal; the loop around
    the repository catches it, logs "Error processing repo owner/name:"
    with the status (or the message), and goes on with the next
    repository.  In the branch scan it is caught inside the pull
    request's iteration, which returns, so that the scan goes on with the
    next pull request; a refusal other than not-found is logged as
    "Error checking ref" with the branch and the status (or the
    message). *)
Theorem comment_failure_handling
    {W : Type} (remote : Remote W) (fmt : NumFmt) (cfg : Config) :
  DRY_RUN cfg = false ->
  (forall fuel o repo w,
     failedPostIsFatal (notifyInactiveReviewers remote fmt cfg fuel o repo w)) /\
  (forall fuel r rest w e w1 evs,
     notifyInactiveReviewers remote fmt cfg fuel (owner r) (name r) w
       = (Throw e, w1, evs) ->
     processRepo remote fmt cfg fuel r w
       = (Done tt, w1, evs ++ [repoErrorLine r e]) /\
     forEach (r :: rest) (processRepo remote fmt cfg fuel) w
       = prefixed (evs ++ [repoErrorLine r e])
           (forEach rest (processRepo remote fmt cfg fuel) w1)) /\
  (forall o repo since pr rest any w a w1 e w2,
     withinWindow since pr = true ->
     isMerged pr = true ->
     getRef remote o repo (headRef pr) w = (Ok a, w1) ->
     createComment remote o repo (number pr)
       (branchBody (user_login pr) (head_ref pr)) w1 = (Err e, w2) ->
     let run := cleanupPr remote cfg o repo since pr any w in
     outcome run = Done true /\
     (is404 (RemoteError e) = false ->
      events run =
        [GetRef o repo (headRef pr) (Ok a);
         CreateComment o repo (number pr)
           (branchBody (user_login pr) (head_ref pr)) (Err e);
         Log ["Error checking ref"; head_ref pr;
              statusOrMessage (RemoteError e)]]) /\
     cleanupPage remote cfg o repo since (pr :: rest) any w =
       prefixed (events run)
         (cleanupPage remote cfg o repo since rest true w2)).
Proof.
  intro Hlive. split; [|split].
  - intros fuel o repo w. apply notifyInactiveReviewers_fatal.
  - intros fuel r rest w e w1 evs Hthrow.
    assert (Hp : processRepo remote fmt cfg fuel r w
                 = (Done tt, w1, evs ++ [repoErrorLine r e])).
    { rewrite processRepo_run.
      now rewrite (scanRepo_reviewer_throw remote fmt cfg fuel r w w1 e evs Hthrow). }
    split; [exact Hp|]. rewrite forEach_cons, Hp. reflexivity.
  - intros o repo since pr rest any w a w1 e w2 Hwin Hmerged Href Hpost run.
    assert (Hrun : run = (Done true, w2,
         [GetRef o repo (headRef pr) (Ok a);
          CreateComment o repo (number pr)
            (branchBody (user_login pr) (head_ref pr)) (Err e)]
         ++ refErrorLog (head_ref pr) e)).
    { subst run. rewrite cleanupPr_run, Hwin, Hmerged, Href.
      cbv zeta. now rewrite Hlive, Hpost. }
    split; [now rewrite Hrun|]. split.
    + intro Hn. rewrite Hrun. unfold refErrorLog. now rewrite Hn.
    + rewrite cleanupPage_cons, Hwin. fold run. now rewrite Hrun.
Qed.

Lemma comment_failure_handling_witness :
  failedPostIsFatal
    (notifyInactiveReviewers (Demo.remoteOf Examples.brokenSite) Demo.fmt
       Examples.liveCfg 5 "acme" "web" tt) /\
  processRepo (Demo.remoteOf Examples.brokenSite) Demo.fmt Examples.liveCfg 5
    (mkRepoRef "acme" "web") tt =
  (Done tt, tt,
   events (notifyInactiveReviewers (Demo.remoteOf Examples.brokenSite) Demo.fmt
             Examples.liveCfg 5 "acme" "web" tt)
   ++ [Log ["Error processing repo acme/web:"; "500"]]).
Proof.
  pose proof (comment_failure_handling (Demo.remoteOf Examples.brokenSite)
                Demo.fmt Examples.liveCfg eq_refl) as [Hfatal [Hcatch _]].
  split.
  - exact (Hfatal 5%nat "acme" "web" tt).
  - exact (proj1 (Hcatch 5%nat (mkRepoRef "acme" "web") [] tt
                    (RemoteError Demo.serverError) tt _ eq_refl)).
Defined.

(** C4, as the contract words it, fails: with comments refused by a
    server error, the reviewer scan of [acme/web] throws at the first
    reminder (for bob); carol, who is due as well, is never reached and
    the scan logs nothing about the failure. *)
Lemma comment_failure_escapes_reviewer_scan :
  ~ postFailureContained
      (notifyInactiveReviewers (Demo.remoteOf Examples.brokenSite) Demo.fmt
         Examples.liveCfg 5 "acme" "web" tt).
Proof.
  intro H.
  destruct (H "acme" "web" 5
              (reviewerBody Demo.fmt Examples.liveCfg "bob"
                 (hoursSince Demo.clock (created_at Examples.pr5)))
              Demo.serverError) as [Hno _].
  - vm_compute. repeat (first [left; reflexivity | right]).
  - apply (Hno (RemoteError Demo.serverError)). reflexivity.
Qed.

(** The run of the counterexample, event by event. *)
Example broken_reviewer_scan :
  notifyInactiveReviewers (Demo.remoteOf Examples.brokenSite) Demo.fmt
    Examples.liveCfg 5 "acme" "web" tt =
  (Throw (RemoteError Demo.serverError), tt,
   [Log ["[acme/web] Checking open PRs for inactive reviewers (> 12h)"];
    PullsList (openQuery "acme" "web" 1) (Ok [Examples.pr5]);
    ListReviews "acme" "web" 5 (Ok []);
    CreateComment "acme" "web" 5
      "@bob You were requested for review 13.0 hours ago (threshold 12h). Please review this PR."
      (Err Demo.serverError)]).
Proof. reflexivity. Qed.

(** ** The orchestrator *)

Lemma total_now {W : Type} (remote : Remote W) : total (now remote).
Proof. intro w. unfold now. destruct (dateNow remote w). discriminate. Qed.

Ltac total_step :=
  lazymatch goal with
  | |- total (ret _) => apply total_ret
  | |- total (throw _) => apply total_throw
  | |- total (now _) => apply total_now
  | |- total (emit _) => apply total_emit
  | |- total (log _) => apply total_emit
  | |- total (await _ _) => apply total_await
  | |- total (bind _ _) => apply total_bind
  | |- total (tryCatch _ _) => apply total_tryCatch
  | |- total (forEach _ _) => apply total_forEach
  | |- total (if ?b then _ else _) => destruct b
  | |- total (match ?x with _ => _ end) => destruct x
  end.

Ltac total_auto := repeat (intros; total_step); intros.

Section OrchestratorFacts.

Context {W : Type}.
Variable remote : Remote W.
Variable fmt : NumFmt.
Variable cfg : Config.

Lemma remindPr_total o repo pr : total (remindPr remote fmt cfg o repo pr).
Proof. unfold remindPr, remindReviewer. total_auto. Qed.

Lemma cleanupPage_total o repo since prs any :
  total (cleanupPage remote cfg o repo since prs any).
Proof. intro w. rewrite cleanupPage_done. discriminate. Qed.

Section Termination.

Variable N : Z.
Hypothesis HN : 0 <= N.
Hypothesis Hend : pagesEnd remote N.

Lemma reviewerLoop_total (fuel : nat) o repo :
  forall page,
    (0 < fuel)%nat -> N + 1 < page + Z.of_nat fuel ->
    total (reviewerLoop remote fmt cfg fuel o repo page).
Proof.
  induction fuel as [|fuel IH]; intros page Hpos Hfuel w; [lia|].
  cbn [reviewerLoop]. rewrite bind_run. unfold await.
  pose proof (Hend (openQuery o repo page) w) as Hempty.
  destruct (pullsList remote (openQuery o repo page) w) as [[prs|e] w1];
    [|discriminate].
  destruct prs as [|p ps]; [discriminate|].
  rewrite outcome_prefixed. cbn [fst q_page openQuery] in Hempty.
  assert (Hpage : page <= N) by (destruct (Z_lt_le_dec N page); [tauto|lia]).
  apply total_bind.
  - apply total_forEach. intro x. apply remindPr_total.
  - intros _. apply IH; lia.
Qed.

Lemma cleanupLoop_total (fuel : nat) o repo since :
  forall page,
    (0 < fuel)%nat -> N + 1 < page + Z.of_nat fuel ->
    total (cleanupLoop remote cfg fuel o repo since page).
Proof.
  induction fuel as [|fuel IH]; intros page Hpos Hfuel w; [lia|].
  rewrite cleanupLoop_S.
  pose proof (Hend (closedQuery o repo page) w) as Hempty.
  destruct (pullsList remote (closedQuery o repo page) w) as [[prs|e] w1];
    [|discriminate].
  cbv zeta. destruct (existsb (withinWindow since) prs) eqn:Hany; [|discriminate].
  rewrite outcome_prefixed. cbn [fst q_page closedQuery] in Hempty.
  destruct prs as [|p ps]; [discriminate|].
  assert (Hpage : page <= N) by (destruct (Z_lt_le_dec N page); [tauto|lia]).
  apply IH; lia.
Qed.

Lemma scanRepo_total (fuel : nat) (r : RepoRef) :
  N < Z.of_nat fuel -> total (scanRepo remote fmt cfg fuel r).
Proof.
  intro Hfuel. unfold scanRepo, notifyInactiveReviewers, notifyUndeletedBranches.
  total_auto.
  - apply reviewerLoop_total; lia.
  - apply cleanupLoop_total; lia.
Qed.

Lemma processRepo_total (fuel : nat) (r : RepoRef) :
  N < Z.of_nat fuel -> total (processRepo remote fmt cfg fuel r).
Proof.
  intros Hfuel w. rewrite processRepo_run.
  pose proof (scanRepo_total fuel r Hfuel w) as Hs.
  now destruct (scanRepo remote fmt cfg fuel r w) as [[[a|e'|] w1] ev1].
Qed.

End Termination.

Lemma notifyInactiveReviewers_starts (fuel : nat) (r : RepoRef) (w : W) :
  notifyInactiveReviewers remote fmt cfg fuel (owner r) (name r) w =
  prefixed [reviewerHeader fmt cfg r]
    (reviewerLoop remote fmt cfg fuel (owner r) (name r) 1 w).
Proof. unfold notifyInactiveReviewers. now rewrite bind_run. Qed.

Lemma processRepo_starts (fuel : nat) (r : RepoRef) (w : W) :
  exists rest,
    events (processRepo remote fmt cfg fuel r w) = reviewerHeader fmt cfg r :: rest.
Proof.
  rewrite processRepo_run. unfold scanRepo.
  rewrite bind_run, notifyInactiveReviewers_starts.
  destruct (reviewerLoop remote fmt cfg fuel (owner r) (name r) 1 w)
    as [[[a|e|] w1] ev1]; unfold prefixed at 1;
    cbn [outcome world events fst snd app].
  - destruct (notifyUndeletedBranches remote cfg fuel (owner r) (name r) w1)
      as [[[a'|e'|] w2] ev2]; cbn; now eexists.
  - cbn. now eexists.
  - cbn. now eexists.
Qed.

Lemma forEach_processRepo_safe (fuel : nat) (repos : list RepoRef) :
  safe (forEach repos (processRepo remote fmt cfg fuel)).
Proof. apply safe_forEach. intro r. apply processRepo_safe. Qed.

Lemma forEach_attempted (fuel : nat) (repos : list RepoRef) :
  forall w u,
    outcome (forEach repos (processRepo remote fmt cfg fuel) w) = Done u ->
    allAttempted fmt cfg repos
      (events (forEach repos (processRepo remote fmt cfg fuel) w)).
Proof.
  induction repos as [|r rest IH]; intros w u.
  - intros _. exists []. split; [constructor|reflexivity].
  - rewrite forEach_cons.
    destruct (processRepo_starts fuel r w) as [tl Htl].
    destruct (processRepo remote fmt cfg fuel r w) as [[[a|e|] w1] ev1];
      cbn [events snd] in Htl; try discriminate.
    rewrite outcome_prefixed, events_prefixed. intro Hd.
    destruct (IH w1 u Hd) as [chunks [Hall Hcat]].
    exists (ev1 :: chunks). split.
    + constructor; [now exists tl|exact Hall].
    + cbn [List.concat]. now rewrite Hcat.
Qed.

Lemma forEach_processRepo_done (fuel : nat) (N : Z) (repos : list RepoRef) :
  0 <= N -> pagesEnd remote N -> N < Z.of_nat fuel ->
  forall w, outcome (forEach repos (processRepo remote fmt cfg fuel) w) = Done tt.
Proof.
  intros HN Hend Hfuel w.
  pose proof (forEach_processRepo_safe fuel repos w) as Hsafe.
  assert (Htot : total (forEach repos (processRepo remote fmt cfg fuel))).
  { apply total_forEach. intro r. now apply (processRepo_total N). }
  specialize (Htot w).
  destruct (outcome (forEach repos (processRepo remote fmt cfg fuel) w))
    as [[]|e|]; [reflexivity| |contradiction].
  now destruct (Hsafe e).
Qed.

Lemma main_run (fuel : nat) (w : W) (repos : list RepoRef) :
  outcome (listRepos remote cfg fuel w) = Done repos ->
  main remote fmt cfg fuel w =
  let resolved := listRepos remote cfg fuel w in
  let scan := forEach repos (processRepo remote fmt cfg fuel) (world resolved) in
  match outcome scan with
  | Done _ =>
      (Done tt, world scan,
       events resolved ++
       Log ["Target repositories:"; String.concat ", " (map repoLabel repos)]
       :: events scan ++ [Log ["Completed run"]])
  | Throw e =>
      (Throw e, world scan,
       events resolved ++
       Log ["Target repositories:"; String.concat ", " (map repoLabel repos)]
       :: events scan)
  | OutOfFuel =>
      (OutOfFuel, world scan,
       events resolved ++
       Log ["Target repositories:"; String.concat ", " (map repoLabel repos)]
       :: events scan)
  end.
Proof.
  intro Hres. unfold main. rewrite bind_run.
  destruct (listRepos remote cfg fuel w) as [[out w1] ev1].
  cbn [outcome world events fst snd] in *. subst out. cbv zeta.
  rewrite bind_run. unfold log at 1, emit at 1.
  rewrite bind_run.
  destruct (forEach repos (processRepo remote fmt cfg fuel) w1)
    as [[[a|e|] w2] ev2]; cbn; reflexivity.
Qed.

End OrchestratorFacts.

(** C6. Around every repository of the loop of [main]: an error thrown
    by the reviewer scan, or by the branch scan after it, is caught and
    logged as "Error processing repo owner/name:" with its status (or
    message); the loop never throws and goes on with the next repository;
    when the loop returns, its events split into one stretch per resolved
    repository, in order, each starting with that repository's first line.
    After a successful resolution [main] never throws, and when listings
    run out of entries after some page, enough fuel makes it return. *)
Theorem repository_failures_are_isolated
    {W : Type} (remote : Remote W) (fmt : NumFmt) (cfg : Config) (fuel : nat) :
  (forall r w e w1 evs,
     notifyInactiveReviewers remote fmt cfg fuel (owner r) (name r) w
       = (Throw e, w1, evs) ->
     processRepo remote fmt cfg fuel r w
       = (Done tt, w1, evs ++ [repoErrorLine r e])) /\
  (forall r w w1 evs e w2 evs2,
     notifyInactiveReviewers remote fmt cfg fuel (owner r) (name r) w
       = (Done tt, w1, evs) ->
     notifyUndeletedBranches remote cfg fuel (owner r) (name r) w1
       = (Throw e, w2, evs2) ->
     processRepo remote fmt cfg fuel r w
       = (Done tt, w2, (evs ++ evs2) ++ [repoErrorLine r e])) /\
  (forall repos w e,
     outcome (forEach repos (processRepo remote fmt cfg fuel) w) <> Throw e) /\
  (forall r rest w,
     outcome (processRepo remote fmt cfg fuel r w) = Done tt ->
     forEach (r :: rest) (processRepo remote fmt cfg fuel) w =
       prefixed (events (processRepo remote fmt cfg fuel r w))
         (forEach rest (processRepo remote fmt cfg fuel)
            (world (processRepo remote fmt cfg fuel r w)))) /\
  (forall repos w,
     outcome (forEach repos (processRepo remote fmt cfg fuel) w) = Done tt ->
     allAttempted fmt cfg repos
       (events (forEach repos (processRepo remote fmt cfg fuel) w))) /\
  (forall w repos,
     outcome (listRepos remote cfg fuel w) = Done repos ->
     (forall e, outcome (main remote fmt cfg fuel w) <> Throw e) /\
     (outcome (main remote fmt cfg fuel w) = Done tt ->
      exists evs,
        allAttempted fmt cfg repos evs /\
        events (main remote fmt cfg fuel w) =
          events (listRepos remote cfg fuel w) ++
          Log ["Target repositories:"; String.concat ", " (map repoLabel repos)]
          :: evs ++ [Log ["Completed run"]])) /\
  (forall N w repos,
     0 <= N -> pagesEnd remote N -> N < Z.of_nat fuel ->
     outcome (listRepos remote cfg fuel w) = Done repos ->
     outcome (main remote fmt cfg fuel w) = Done tt).
Proof.
  split; [|split; [|split; [|split; [|split; [|split]]]]].
  - intros r w e w1 evs H. rewrite processRepo_run.
    now rewrite (scanRepo_reviewer_throw remote fmt cfg fuel r w w1 e evs H).
  - intros r w w1 evs e w2 evs2 H H0.
    rewrite processRepo_run. unfold scanRepo. rewrite bind_run, H.
    unfold prefixed. rewrite H0. reflexivity.
  - intros repos w e. apply forEach_processRepo_safe.
  - intros r rest w H. now apply processRepo_done with (u := tt).
  - intros repos w H. now apply forEach_attempted with (u := tt).
  - intros w repos H. split.
    + intros e. rewrite (main_run remote fmt cfg fuel w repos H). cbv zeta.
      pose proof (forEach_processRepo_safe remote fmt cfg fuel repos
                    (world (listRepos remote cfg fuel w))) as Hsafe.
      destruct (outcome (forEach repos (processRepo remote fmt cfg fuel) _))
        as [a|e'|] eqn:Ho; cbn; try discriminate.
      now destruct (Hsafe e').
    + rewrite (main_run remote fmt cfg fuel w repos H). cbv zeta.
      destruct (outcome (forEach repos (processRepo remote fmt cfg fuel) _))
        as [a|e'|] eqn:Ho; cbn [outcome events fst snd]; try discriminate.
      intros _. eexists. split; [|reflexivity].
      now apply forEach_attempted with (u := a).
  - intros N w repos HN Hend Hfuel Hres.
    rewrite (main_run remote fmt cfg fuel w repos Hres). cbv zeta.
    now rewrite (forEach_processRepo_done remote fmt cfg fuel N repos HN Hend Hfuel).
Qed.

(** A run over two repositories, the first of which fails: its failure
    is logged and the second is scanned. *)
Example mixed_run :
  main (Demo.remoteOf Examples.mixedSite) Demo.fmt Examples.mixedCfg 5 tt =
  (Done tt, tt,
   [Log ["Target repositories:"; "acme/down, acme/web"];
    Log ["[acme/down] Checking open PRs for inactive reviewers (> 12h)"];
    PullsList (openQuery "acme" "down" 1) (Err Demo.serverError);
    Log ["Error processing repo acme/down:"; "500"];
    Log ["[acme/web] Checking open PRs for inactive reviewers (> 12h)"];
    PullsList (openQuery "acme" "web" 1) (Ok [Examples.pr5]);
    ListReviews "acme" "web" 5 (Ok []);
    Log [dryRunLine 5 (reviewerBody Demo.fmt Examples.mixedCfg "bob" (13 # 1))];
    Log [dryRunLine 5 (reviewerBody Demo.fmt Examples.mixedCfg "carol" (13 # 1))];
    PullsList (openQuery "acme" "web" 2) (Ok []);
    Log ["[acme/web] Checking merged PRs for undeleted branches (lookback 14d)"];
    PullsList (closedQuery "acme" "web" 1)
      (Ok [Examples.pr42; Demo.closedPr 43 1 false "unmerged"]);
    GetRef "acme" "web" "heads/feature-x" (Ok tt);
    Log [dryRunLine 42 (branchBody "alice" "feature-x")];
    PullsList (closedQuery "acme" "web" 2) (Ok [Demo.closedPr 7 30 true "ancient"]);
    Log ["Completed run"]]).
Proof. vm_compute. reflexivity. Qed.

(** ** Worked examples *)

Section WorkedExamples.

Import Demo Examples.

(** Owner [acme], no explicit list, one open pull request created 13
    hours ago whose reviewer has not reviewed, threshold 12: the run
    posts exactly one comment, the reminder for bob. *)
Example stale_reviewer_is_reminded :
  filter isComment (events (main (remoteOf acmeSite) fmt acmeCfg 5 tt)) =
  [CreateComment "acme" "web" 9
     "@bob You were requested for review 13.0 hours ago (threshold 12h). Please review this PR."
     (Ok tt)].
Proof. vm_compute. reflexivity. Qed.

(** Exactly 12 hours waited: no reminder. *)
Example threshold_is_strict :
  remindReviewer (remoteOf emptySite) fmt liveCfg "acme" "web"
    (openPr 1 12 ["bob"]) [] "bob" tt = (Done tt, tt, []).
Proof. vm_compute. reflexivity. Qed.

(** A review by bob, whatever it says: no reminder for bob; a review
    without a user counts for nobody. *)
Example reviewed_is_not_reminded :
  remindReviewer (remoteOf emptySite) fmt dryCfg "acme" "web"
    (openPr 1 40 ["bob"]) [mkReview None; mkReview (Some "bob")] "bob" tt
    = (Done tt, tt, []) /\
  events (remindReviewer (remoteOf emptySite) fmt dryCfg "acme" "web"
            (openPr 1 40 ["bob"]) [mkReview None] "bob" tt)
    = [Log ["[DRY_RUN] Would comment on PR #1: @bob You were requested for review 40.0 hours ago (threshold 12h). Please review this PR."]].
Proof. split; vm_compute; reflexivity. Qed.

(** Closed pull requests in two pages, the first updated within the
    window and the second a month ago: the second page is requested (the
    first had a pull request within the window), its merged pull request
    is not looked up, and no third page is requested. *)
Example closed_pages_requested :
  events (notifyUndeletedBranches (remoteOf branchSite) liveCfg 5 "acme" "web" tt) =
  [Log ["[acme/web] Checking merged PRs for undeleted branches (lookback 14d)"];
   PullsList (closedQuery "acme" "web" 1)
     (Ok [pr42; closedPr 43 1 false "unmerged"]);
   GetRef "acme" "web" "heads/feature-x" (Ok tt);
   CreateComment "acme" "web" 42
     "@alice The PR was merged but the branch `feature-x` still exists. Please delete it if it's no longer needed."
     (Ok tt);
   Log ["Commented branch reminder on PR #42"];
   PullsList (closedQuery "acme" "web" 2) (Ok [closedPr 7 30 true "ancient"])].
Proof. vm_compute. reflexivity. Qed.

(** Explicit lists. *)
Example explicit_lists :
  listRepos (remoteOf emptySite) (config "acme" "o/r, y" false) 5 tt
    = (Done [mkRepoRef "o" "r"; mkRepoRef "acme" "y"], tt, []) /\
  listRepos (remoteOf emptySite) (config "" "o/r, y" false) 5 tt
    = (Throw (ScriptError
        "Repository 'y' missing owner. Provide OWNER env var or use 'owner/repo' form."),
       tt, []) /\
  listRepos (remoteOf emptySite) (config "acme" "a/b/c" false) 5 tt
    = (Throw (ScriptError "Invalid repo spec: 'a/b/c'. Use 'owner/repo' or 'repo'."),
       tt, []) /\
  listRepos (remoteOf emptySite) (config "" "" false) 5 tt
    = (Throw (ScriptError "OWNER env var required when REPOS not provided."),
       tt, []).
Proof. repeat split; vm_compute; reflexivity. Qed.

(** The discovery of a user account: the organization listing is probed
    on both pages, its entries on page 2 are not used. *)
Example user_discovery :
  autoDiscoverRepos (remoteOf userSite) bobCfg 5 tt =
  (Done [mkRepoRef "bob" "tool"], tt,
   [Log ["Auto-discovering repositories for owner"; "bob"];
    ListForOrg "bob" 100 1 (Err notFound);
    ListForUser "bob" 100 1
      (Ok [mkRepoInfo "bob" "tool" false false;
           mkRepoInfo "bob" "copy" false true;
           mkRepoInfo "bob" "old" true false]);
    ListForOrg "bob" 100 2 (Ok [mkRepoInfo "acme" "stray" false false]);
    ListForUser "bob" 100 2 (Ok [])]).
Proof. vm_compute. reflexivity. Qed.

End WorkedExamples.

(** ** The start of the script *)

Section StartupFacts.

Import Startup.

Lemma mapInput_other (name target : string) (env : Env) (k : string) :
  k <> target -> mapInput name target env k = env k.
Proof.
  intro Hk. unfold mapInput.
  destruct (env (inputKey name)) as [v|]; [|reflexivity].
  destruct (Js.truthy v && negb (isSet (env target))); [|reflexivity].
  unfold setenv. apply String.eqb_neq in Hk. now rewrite Hk.
Qed.

Lemma mapInput_target (name target : string) (env : Env) :
  mapInput name target env target = resolvedInput env name target.
Proof.
  unfold mapInput, resolvedInput.
  destruct (env (inputKey name)) as [v|] eqn:Ev; cbn [isSet].
  - destruct (isSet (env target)) eqn:Et; cbn [negb].
    + now rewrite andb_false_r.
    + rewrite andb_true_r. destruct (Js.truthy v); [|reflexivity].
      unfold setenv. now rewrite String.eqb_refl.
  - now destruct (isSet (env target)).
Qed.

Lemma mapInput_kept (name target : string) (env : Env) :
  isSet (env target) = true -> mapInput name target env = env.
Proof.
  intro Ht. unfold mapInput.
  destruct (env (inputKey name)) as [v|]; [|reflexivity].
  now rewrite Ht, andb_false_r.
Qed.

Lemma mapInputs_other (pairs : list (string * string)) :
  forall (env : Env) (k : string),
    ~ In k (map snd pairs) -> mapInputs pairs env k = env k.
Proof.
  induction pairs as [|[n t] ps IH]; intros env k Hk; [reflexivity|].
  cbn [mapInputs fold_left fst snd]. fold (mapInputs ps (mapInput n t env)).
  cbn [map snd In] in Hk.
  rewrite IH by tauto. apply mapInput_other. intro E. apply Hk. now left.
Qed.

Lemma mapInputs_target (pairs : list (string * string)) :
  NoDup (map snd pairs) ->
  (forall p, In p pairs -> ~ In (inputKey (fst p)) (map snd pairs)) ->
  forall (env : Env) (name target : string),
    In (name, target) pairs ->
    mapInputs pairs env target = resolvedInput env name target.
Proof.
  induction pairs as [|[n t] ps IH]; intros Hnd Hkeys env name target Hin;
    [destruct Hin|].
  cbn [mapInputs fold_left fst snd]. fold (mapInputs ps (mapInput n t env)).
  cbn [map snd] in Hnd. inversion Hnd as [|x l Hnot Hnd']; subst.
  destruct Hin as [Heq|Hin].
  - inversion Heq; subst.
    rewrite mapInputs_other by exact Hnot. apply mapInput_target.
  - assert (Htt : target <> t).
    { intro E. subst. apply Hnot. apply in_map_iff. now exists (name, t). }
    assert (Hkt : inputKey name <> t).
    { intro E. apply (Hkeys (name, target)); [now right|].
      cbn [fst map snd]. left. now symmetry. }
    assert (Hkeys' : forall p, In p ps -> ~ In (inputKey (fst p)) (map snd ps)).
    { intros p Hp Hbad. apply (Hkeys p); [now right|].
      cbn [map snd]. now right. }
    rewrite (IH Hnd' Hkeys' (mapInput n t env) name target Hin).
    unfold resolvedInput.
    now rewrite !(mapInput_other n t env _ Htt), !(mapInput_other n t env _ Hkt).
Qed.

Lemma inputs_well_formed :
  NoDup (map snd inputs) /\
  (forall p, In p inputs -> ~ In (inputKey (fst p)) (map snd inputs)).
Proof.
  split.
  - cbn. repeat constructor; cbn; intuition discriminate.
  - intros p Hp. cbn in Hp.
    repeat (destruct Hp as [Hp|Hp]; [subst p; cbn; intuition discriminate|]).
    destruct Hp.
Qed.

Lemma applyInputs_target (env : Env) (name target : string) :
  In (name, target) inputs ->
  applyInputs env target = resolvedInput env name target.
Proof.
  destruct inputs_well_formed as [Hnd Hkeys].
  now apply mapInputs_target.
Qed.

Lemma applyInputs_other (env : Env) (k : string) :
  ~ In k (map snd inputs) -> applyInputs env k = env k.
Proof. apply mapInputs_other. Qed.

Lemma orElse_resolved (env : Env) (name target d : string) :
  orElse (resolvedInput env name target) d =
  firstSet [env target; env (inputKey name)] d.
Proof.
  unfold resolvedInput. cbn [firstSet].
  destruct (env target) as [s|]; destruct (env (inputKey name)) as [v|];
    repeat (cbn [isSet orElse];
            match goal with
            | H : Js.truthy ?x = _ |- context [Js.truthy ?x] => rewrite H
            | |- context [Js.truthy ?x] => destruct (Js.truthy x) eqn:?
            end);
    reflexivity.
Qed.

End StartupFacts.

(** X1. One call of [mapInput] changes at most its target variable, and
    only when that variable is unset or empty and the input is set, in
    which case the target takes the input's value; a second call changes
    nothing. *)
Theorem mapInput_behaviour (name target : string) (env : Startup.Env) :
  (forall k, k <> target -> Startup.mapInput name target env k = env k) /\
  Startup.mapInput name target env target = resolvedInput env name target /\
  (Startup.isSet (env target) = true -> Startup.mapInput name target env = env) /\
  Startup.mapInput name target (Startup.mapInput name target env)
    = Startup.mapInput name target env.
Proof.
  split; [apply mapInput_other|]. split; [apply mapInput_target|].
  split; [apply mapInput_kept|].
  destruct (Startup.isSet (Startup.mapInput name target env target)) eqn:Hs.
  - now apply (mapInput_kept name target).
  - rewrite mapInput_target in Hs. unfold resolvedInput in Hs.
    unfold Startup.mapInput at 2 3.
    destruct (Startup.isSet (env target)) eqn:Ht; [congruence|].
    destruct (env (Startup.inputKey name)) as [v|] eqn:Ev; [|
      unfold Startup.mapInput; now rewrite Ev].
    cbn [Startup.isSet] in Hs.
    destruct (Js.truthy v) eqn:Tv; [cbn [Startup.isSet] in Hs; congruence|].
    cbn [andb]. unfold Startup.mapInput. now rewrite Ev, Tv.
Qed.

(** X2. After the eight input mappings, each mapped variable holds its
    own value when it was set, and otherwise the value of its
    [INPUT_...] variable when that was set; every other variable is
    untouched. *)
Theorem applyInputs_resolution (env : Startup.Env) :
  (forall name target,
     In (name, target) Startup.inputs ->
     Startup.applyInputs env target = resolvedInput env name target) /\
  (forall k, ~ In k (map snd Startup.inputs) ->
             Startup.applyInputs env k = env k).
Proof.
  split.
  - intros name target. apply applyInputs_target.
  - apply applyInputs_other.
Qed.

(** X3. The owner of the configuration is the first that is set among
    the [OWNER] variable, the [owner] input and the legacy [ORG]
    variable, and empty when none is; the list of repositories is the
    [REPOS] variable, or else the [repos] input. *)
Theorem owner_precedence (p : Startup.NumParse) (env : Startup.Env) :
  OWNER (Startup.loadConfig p (Startup.applyInputs env)) =
    Startup.firstSet [env "OWNER"; env "INPUT_OWNER"; env "ORG"] "" /\
  REPOS (Startup.loadConfig p (Startup.applyInputs env)) =
    Startup.firstSet [env "REPOS"; env "INPUT_REPOS"] "".
Proof.
  cbn [OWNER REPOS Startup.loadConfig].
  rewrite (applyInputs_target env "owner" "OWNER") by (cbn; tauto).
  rewrite (applyInputs_target env "repos" "REPOS") by (cbn; tauto).
  rewrite (applyInputs_other env "ORG") by (cbn; intuition discriminate).
  rewrite !orElse_resolved. split; reflexivity.
Qed.

Lemma isSet_firstSet (v1 v2 : option string) :
  Startup.isSet (if Startup.isSet v1 then v1
                 else if Startup.isSet v2 then v2 else v1) = false
  <-> Startup.firstSet [v1; v2] "" = "".
Proof.
  cbn [Startup.firstSet].
  destruct v1 as [s|]; destruct v2 as [v|];
    repeat (cbn [Startup.isSet Startup.orElse];
            match goal with
            | H : Js.truthy ?x = _ |- context [Js.truthy ?x] => rewrite H
            | |- context [Js.truthy ?x] => destruct (Js.truthy x) eqn:?
            end);
    cbn [Startup.isSet Startup.orElse];
    repeat match goal with
           | H : Js.truthy ?x = true |- _ => apply truthy_true in H
           | H : Js.truthy ?x = false |- _ => apply truthy_false in H
           end;
    split; intro; try congruence; try reflexivity; subst; try congruence.
Qed.

Section MainFailure.

Context {W : Type}.
Variable remote : Remote W.
Variable fmt : NumFmt.
Variable cfg : Config.

Lemma main_cut_off (fuel : nat) (w : W) :
  outcome (listRepos remote cfg fuel w) = OutOfFuel ->
  outcome (main remote fmt cfg fuel w) = OutOfFuel.
Proof.
  unfold main. rewrite bind_run.
  destruct (listRepos remote cfg fuel w) as [[[a|e|] w1] ev1]; cbn;
    intro H; try discriminate. reflexivity.
Qed.

Lemma main_throw_iff (fuel : nat) (w : W) (e : Exn) :
  outcome (main remote fmt cfg fuel w) = Throw e <->
  outcome (listRepos remote cfg fuel w) = Throw e.
Proof.
  split.
  - intro Hm.
    destruct (outcome (listRepos remote cfg fuel w)) as [repos|e'|] eqn:Hres.
    + rewrite (main_run remote fmt cfg fuel w repos Hres) in Hm. cbv zeta in Hm.
      pose proof (forEach_processRepo_safe remote fmt cfg fuel repos
                    (world (listRepos remote cfg fuel w))) as Hsafe.
      destruct (outcome (forEach repos (processRepo remote fmt cfg fuel) _))
        as [a|e''|] eqn:Ho; cbn in Hm; try discriminate.
      now destruct (Hsafe e'').
    + rewrite (main_resolution_failure remote cfg fmt fuel w e' Hres) in Hm.
      cbn in Hm. congruence.
    + rewrite (main_cut_off fuel w Hres) in Hm. discriminate.
  - intro Hres. now rewrite (main_resolution_failure remote cfg fmt fuel w e Hres).
Qed.

End MainFailure.

(** X4. The script ends on the missing token, before any remote call or
    log line, exactly when neither the [GITHUB_TOKEN] variable nor the
    [github_token] input is set; otherwise it is the run of [main] on the
    configuration read from the mapped environment. *)
Theorem script_token_gate
    {W : Type} (remote : Remote W) (fmt : NumFmt) (p : Startup.NumParse)
    (env : Startup.Env) (fuel : nat) (w : W) :
  let token :=
    Startup.firstSet [env "GITHUB_TOKEN"; env "INPUT_GITHUB_TOKEN"] "" in
  let run :=
    main remote fmt (Startup.loadConfig p (Startup.applyInputs env)) fuel w in
  (token = "" ->
   Startup.script remote fmt p env fuel w = (Startup.MissingToken, w, [])) /\
  (token <> "" ->
   Startup.script remote fmt p env fuel w =
     (Startup.endingOf (outcome run), world run, events run)) /\
  (fst (fst (Startup.script remote fmt p env fuel w)) = Startup.MissingToken
   <-> token = "").
Proof.
  intros token run. unfold Startup.script. fold run.
  rewrite (applyInputs_target env "github_token" "GITHUB_TOKEN") by (cbn; tauto).
  unfold resolvedInput.
  change (Startup.inputKey "github_token") with "INPUT_GITHUB_TOKEN".
  pose proof (isSet_firstSet (env "GITHUB_TOKEN") (env "INPUT_GITHUB_TOKEN")) as Hset.
  fold token in Hset.
  destruct (Startup.isSet _) eqn:Hs; cbn [negb].
  - assert (Hne : token <> "") by (intro E; apply Hset in E; discriminate).
    split; [intro E; contradiction|]. split; [reflexivity|].
    cbn [fst]. split; [|intro E; contradiction].
    destruct (outcome run); discriminate.
  - assert (He : token = "") by (now apply Hset).
    split; [reflexivity|]. split; [intro E; contradiction|]. now split.
Qed.

(** X5. [main] throws an error exactly when repository resolution throws
    that error: once the repositories are resolved, nothing makes the run
    fail. *)
Theorem main_fails_iff_resolution_fails
    {W : Type} (remote : Remote W) (fmt : NumFmt) (cfg : Config)
    (fuel : nat) (w : W) (e : Exn) :
  outcome (main remote fmt cfg fuel w) = Throw e <->
  outcome (listRepos remote cfg fuel w) = Throw e.
Proof. apply main_throw_iff. Qed.

(** X6. When the [DRY_RUN] variable, or else the [dry_run] input, is the
    word "true" in any letter case, the script makes no comment call; the
    dry-run flag of the configuration is on for no other value. *)
Theorem dry_run_variable_stops_comments
    {W : Type} (remote : Remote W) (fmt : NumFmt) (p : Startup.NumParse)
    (env : Startup.Env) (fuel : nat) (w : W) :
  let value :=
    Startup.firstSet [env "DRY_RUN"; env "INPUT_DRY_RUN"] "false" in
  (DRY_RUN (Startup.loadConfig p (Startup.applyInputs env)) = true
   <-> Startup.toLowerCase value = "true") /\
  (Startup.toLowerCase value = "true" ->
   Forall (fun ev => isComment ev = false)
     (snd (Startup.script remote fmt p env fuel w))).
Proof.
  intro value.
  assert (Hflag : DRY_RUN (Startup.loadConfig p (Startup.applyInputs env))
                  = Startup.testTrue value).
  { cbn [DRY_RUN Startup.loadConfig].
    rewrite (applyInputs_target env "dry_run" "DRY_RUN") by (cbn; tauto).
    now rewrite orElse_resolved. }
  assert (Hiff : DRY_RUN (Startup.loadConfig p (Startup.applyInputs env)) = true
                 <-> Startup.toLowerCase value = "true").
  { rewrite Hflag. unfold Startup.testTrue. apply String.eqb_eq. }
  split; [exact Hiff|]. intro Hv. apply Hiff in Hv.
  unfold Startup.script.
  destruct (negb (Startup.isSet _)); cbn [snd]; [constructor|].
  now apply main_quiet.
Qed.

Lemma dry_run_variable_stops_comments_witness :
  Forall (fun ev => isComment ev = false)
    (snd (Startup.script (Demo.remoteOf Examples.healthySite) Demo.fmt
            MoreExamples.parsers MoreExamples.actionEnv 5 tt)).
Proof.
  apply (dry_run_variable_stops_comments (Demo.remoteOf Examples.healthySite)
           Demo.fmt MoreExamples.parsers MoreExamples.actionEnv 5 tt).
  reflexivity.
Defined.

(** ** What the scans call *)

Section AddressFacts.

Context {W : Type}.
Variable remote : Remote W.
Variable fmt : NumFmt.
Variable cfg : Config.

Lemma remindPr_addressed o repo pr :
  evAll (addressedTo o repo) (remindPr remote fmt cfg o repo pr).
Proof.
  unfold remindPr. ev_auto; try (cbn; tauto).
  unfold remindReviewer. ev_auto; try (cbn; tauto).
Qed.

Lemma reviewerLoop_addressed (fuel : nat) o repo :
  forall page, evAll (addressedTo o repo) (reviewerLoop remote fmt cfg fuel o repo page).
Proof.
  induction fuel as [|fuel IH]; intro page; cbn [reviewerLoop].
  - apply evAll_outOfFuel.
  - ev_auto; try (cbn; tauto); first [apply IH | apply remindPr_addressed].
Qed.

Lemma cleanupPage_addressed o repo since prs :
  forall any, evAll (addressedTo o repo) (cleanupPage remote cfg o repo since prs any).
Proof.
  induction prs as [|pr rest IH]; intro any; cbn [cleanupPage].
  - apply evAll_ret.
  - apply evAll_bind; [|intro a; apply IH].
    unfold cleanupPr, checkBranch, onRefError. ev_auto; try (cbn; tauto).
Qed.

Lemma cleanupLoop_addressed (fuel : nat) o repo since :
  forall page, evAll (addressedTo o repo) (cleanupLoop remote cfg fuel o repo since page).
Proof.
  induction fuel as [|fuel IH]; intro page; cbn [cleanupLoop].
  - apply evAll_outOfFuel.
  - ev_auto; try (cbn; tauto); first [apply IH | apply cleanupPage_addressed].
Qed.

Lemma processRepo_addressed (fuel : nat) (r : RepoRef) :
  evAll (addressedTo (owner r) (name r)) (processRepo remote fmt cfg fuel r).
Proof.
  unfold processRepo, scanRepo, notifyInactiveReviewers, notifyUndeletedBranches.
  ev_auto; try (cbn; tauto);
    first [apply reviewerLoop_addressed | apply cleanupLoop_addressed].
Qed.

Lemma discoverLoop_listing (fuel : nat) :
  forall isOrg page repos,
    evAll (listingFor (OWNER cfg)) (discoverLoop remote cfg fuel isOrg page repos).
Proof.
  induction fuel as [|fuel IH]; intros isOrg page repos; cbn [discoverLoop].
  - apply evAll_outOfFuel.
  - ev_auto; try (cbn; tauto); apply IH.
Qed.

Lemma listRepos_listing (fuel : nat) :
  evAll (listingFor (OWNER cfg)) (listRepos remote cfg fuel).
Proof.
  unfold listRepos, autoDiscoverRepos. ev_auto; try (cbn; tauto).
  - intro w. unfold parseExplicitRepos.
    destruct (REPOS_RAW cfg) as [|e0 rest] eqn:E; [constructor|].
    assert (Hev : events (parseEntries (W:=W) cfg (e0 :: rest) [] w) = []).
    { assert (Htr : Forall (fun e => Js.truthy e = true) (e0 :: rest)).
      { rewrite <- E. apply Forall_forall. intros e. apply REPOS_RAW_truthy. }
      pose proof (parseEntries_run (W:=W) cfg (e0 :: rest) Htr [] w) as Hrun.
      destruct (forallb (entryOk cfg) (e0 :: rest)); [now rewrite Hrun|tauto]. }
    rewrite Hev. constructor.
  - apply discoverLoop_listing.
Qed.

End AddressFacts.

(** X7. Every remote call made while a repository is processed is
    addressed to that repository: its own pull requests are listed, its
    reviews and refs are read and its pull requests are commented, never
    another repository's, and no repository listing is made. *)
Theorem repository_calls_stay_in_repository
    {W : Type} (remote : Remote W) (fmt : NumFmt) (cfg : Config)
    (fuel : nat) (r : RepoRef) (w : W) :
  Forall (addressedTo (owner r) (name r))
    (events (processRepo remote fmt cfg fuel r w)).
Proof. apply processRepo_addressed. Qed.

(** X8. Repository resolution makes no other remote call than
    repository listings for the configured owner, 100 entries a page; it
    reads no pull request and posts no comment. *)
Theorem resolution_only_lists_repositories
    {W : Type} (remote : Remote W) (cfg : Config) (fuel : nat) (w : W) :
  Forall (listingFor (OWNER cfg)) (events (listRepos remote cfg fuel w)).
Proof. apply listRepos_listing. Qed.

(** ** The order of the pages *)

Lemma pullQueries_app (a b : list Event) :
  pullQueries (a ++ b) = pullQueries a ++ pullQueries b.
Proof.
  induction a as [|ev a IH]; [reflexivity|].
  cbn [app]. destruct ev; cbn [pullQueries app]; auto. now rewrite IH.
Qed.

Lemma pullQueries_none (evs : list Event) :
  Forall (fun ev => isPulls ev = false) evs -> pullQueries evs = [].
Proof.
  induction 1 as [|ev evs Hev _ IH]; [reflexivity|].
  destruct ev; cbn [pullQueries]; auto. discriminate.
Qed.

Section PageOrderFacts.

Context {W : Type}.
Variable remote : Remote W.
Variable fmt : NumFmt.
Variable cfg : Config.

Lemma remindPrs_no_listing o repo prs :
  evAll (fun ev => isPulls ev = false) (forEach prs (remindPr remote fmt cfg o repo)).
Proof.
  apply evAll_forEach. intros pr _. unfold remindPr. ev_auto.
  unfold remindReviewer. ev_auto.
Qed.

Lemma cleanupPage_no_listing o repo since prs :
  forall any,
    evAll (fun ev => isPulls ev = false) (cleanupPage remote cfg o repo since prs any).
Proof.
  induction prs as [|pr rest IH]; intro any; cbn [cleanupPage].
  - apply evAll_ret.
  - apply evAll_bind; [|intro a; apply IH].
    unfold cleanupPr, checkBranch, onRefError. ev_auto.
Qed.

Lemma reviewerLoop_pages (fuel : nat) o repo :
  forall (page : Z) (w : W),
    exists k, (k <= fuel)%nat /\
      pullQueries (events (reviewerLoop remote fmt cfg fuel o repo page w))
        = map (openQuery o repo) (countFrom page k).
Proof.
  induction fuel as [|fuel IH]; intros page w.
  - exists 0%nat. split; [lia|reflexivity].
  - cbn [reviewerLoop]. rewrite bind_run. unfold await.
    destruct (pullsList remote (openQuery o repo page) w) as [[prs|e] w1].
    + destruct prs as [|p ps].
      * exists 1%nat. split; [lia|reflexivity].
      * remember (p :: ps) as prs eqn:Eprs. clear Eprs.
        rewrite events_prefixed, bind_run. cbn [app pullQueries].
        pose proof (remindPrs_no_listing o repo prs w1) as Hno.
        apply pullQueries_none in Hno.
        destruct (forEach prs (remindPr remote fmt cfg o repo) w1)
          as [[[a|e|] w2] ev2]; cbn [events snd] in Hno |- *.
        -- destruct (IH (page + 1) w2) as [k [Hk Hq]].
           exists (S k). split; [lia|].
           rewrite events_prefixed, pullQueries_app, Hno, Hq. reflexivity.
        -- exists 1%nat. split; [lia|]. now rewrite Hno.
        -- exists 1%nat. split; [lia|]. now rewrite Hno.
    + exists 1%nat. split; [lia|reflexivity].
Qed.

Lemma cleanupLoop_pages (fuel : nat) o repo since :
  forall (page : Z) (w : W),
    exists k, (k <= fuel)%nat /\
      pullQueries (events (cleanupLoop remote cfg fuel o repo since page w))
        = map (closedQuery o repo) (countFrom page k).
Proof.
  induction fuel as [|fuel IH]; intros page w.
  - exists 0%nat. split; [lia|reflexivity].
  - rewrite cleanupLoop_S.
    destruct (pullsList remote (closedQuery o repo page) w) as [[prs|e] w1].
    + cbv zeta. destruct (existsb (withinWindow since) prs).
      * pose proof (cleanupPage_no_listing o repo since prs false w1) as Hno.
        apply pullQueries_none in Hno.
        destruct (IH (page + 1)
                    (world (cleanupPage remote cfg o repo since prs false w1)))
          as [k [Hk Hq]].
        exists (S k). split; [lia|].
        rewrite events_prefixed. cbn [app pullQueries].
        rewrite pullQueries_app, Hno, Hq. reflexivity.
      * exists 1%nat. split; [lia|reflexivity].
    + exists 1%nat. split; [lia|reflexivity].
Qed.

End PageOrderFacts.

(** X9. Both scans of a repository list its pull requests page after
    page from page 1 with no gap and no repeat, 50 a page: the reviewer
    scan the open ones, the branch scan the closed ones sorted by update
    time, latest first. *)
Theorem scans_page_in_order
    {W : Type} (remote : Remote W) (fmt : NumFmt) (cfg : Config)
    (fuel : nat) (o repo : string) (w : W) :
  (exists k, (k <= fuel)%nat /\
     pullQueries (events (notifyInactiveReviewers remote fmt cfg fuel o repo w))
       = map (openQuery o repo) (countFrom 1 k)) /\
  (exists k, (k <= fuel)%nat /\
     pullQueries (events (notifyUndeletedBranches remote cfg fuel o repo w))
       = map (closedQuery o repo) (countFrom 1 k)).
Proof.
  split.
  - unfold notifyInactiveReviewers. rewrite bind_run. unfold log, emit.
    rewrite events_prefixed. cbn [app pullQueries].
    apply reviewerLoop_pages.
  - rewrite notifyUndeletedBranches_run, events_prefixed. cbn [app pullQueries].
    apply cleanupLoop_pages.
Qed.

(** ** More on discovery *)

Lemma orgProbes_app (a b : list Event) :
  orgProbes (a ++ b) = orgProbes a ++ orgProbes b.
Proof.
  induction a as [|ev a IH]; [reflexivity|].
  cbn [app]. destruct ev; cbn [orgProbes app]; auto. now rewrite IH.
Qed.

Lemma userAfterNotFound_seen (evs : list Event) :
  forall seen, userAfterNotFound seen evs -> userAfterNotFound true evs.
Proof.
  induction evs as [|ev evs IH]; intros seen H; [exact I|].
  destruct ev; cbn [userAfterNotFound] in *; eauto.
  - destruct r; eauto.
  - destruct H as [_ H]. split; eauto.
Qed.

Section DiscoveryMore.

Context {W : Type}.
Variable remote : Remote W.
Variable cfg : Config.

Lemma userPage_split (fuel : nat) (page : Z) (repos : list RepoRef)
    (before : list Event) (w : W) :
  userPage remote cfg fuel page repos before w =
  prefixed before (userPage remote cfg fuel page repos [] w).
Proof.
  unfold userPage, prefixed.
  destruct (listForUser remote (OWNER cfg) 100 page w) as [[u|e] w1];
    [destruct u|]; cbn [outcome world events fst snd app];
    try reflexivity.
  now rewrite <- app_assoc.
Qed.


Lemma discoverLoop_user_after (fuel : nat) :
  forall isOrg page repos (w : W),
    userAfterNotFound (negb isOrg)
      (events (discoverLoop remote cfg fuel isOrg page repos w)).
Proof.
  induction fuel as [|fuel IH]; intros isOrg page repos w; [exact I|].
  rewrite discoverLoop_S.
  assert (HU : forall w1,
    userAfterNotFound true
      (events (userPage remote cfg fuel page repos [] w1))).
  { intros w1. unfold userPage.
    destruct (listForUser remote (OWNER cfg) 100 page w1) as [[u|e] w2].
    - destruct u as [|r u]; [cbn; tauto|].
      rewrite events_prefixed. cbn [app userAfterNotFound].
      split; [reflexivity|]. apply (IH false).
    - cbn. tauto. }
  destruct (listForOrg remote (OWNER cfg) 100 page w) as [[d|e] w1].
  - destruct isOrg.
    + destruct d as [|r d]; [exact I|].
      rewrite events_prefixed. cbn [app userAfterNotFound]. apply (IH true).
    + rewrite userPage_split, events_prefixed.
      cbn [app userAfterNotFound negb]. apply HU.
  - destruct (is404 (RemoteError e)) eqn:E404; [|exact I].
    rewrite userPage_split, events_prefixed. cbn [app userAfterNotFound].
    rewrite E404, orb_true_r. apply HU.
Qed.

Lemma abortsAt_prefixed {A} (K : Event -> bool) (evs : list Event)
    (r : Outcome A * W * list Event) :
  abortsAt K r -> abortsAt K (prefixed evs r).
Proof.
  intros Hr e Ho. rewrite outcome_prefixed in Ho.
  destruct (Hr e Ho) as [pre [ev [err [Hev Hrest]]]].
  exists (evs ++ pre), ev, err. rewrite events_prefixed, Hev, app_assoc.
  now split.
Qed.

Lemma discoverLoop_aborts (fuel : nat) :
  forall isOrg page repos (w : W),
    abortsAt fatalListing (discoverLoop remote cfg fuel isOrg page repos w).
Proof.
  induction fuel as [|fuel IH]; intros isOrg page repos w; [discriminate|].
  rewrite discoverLoop_S.
  assert (HU : forall before w1,
    abortsAt fatalListing (userPage remote cfg fuel page repos before w1)).
  { intros before w1. rewrite userPage_split. apply abortsAt_prefixed.
    unfold userPage.
    destruct (listForUser remote (OWNER cfg) 100 page w1) as [[u|e'] w2].
    - destruct u as [|r u]; [discriminate|].
      apply abortsAt_prefixed. apply IH.
    - intros e Ho. cbn in Ho. inversion Ho; subst.
      exists []. eexists. exists e'. repeat split. }
  destruct (listForOrg remote (OWNER cfg) 100 page w) as [[d|e'] w1].
  - destruct isOrg; [|apply HU].
    destruct d as [|r d]; [discriminate|].
    apply abortsAt_prefixed. apply IH.
  - destruct (is404 (RemoteError e')) eqn:E404; [apply HU|].
    intros e Ho. cbn in Ho. inversion Ho; subst.
    exists []. eexists. exists e'. split; [reflexivity|].
    cbn [fatalListing rejection]. rewrite E404. repeat split.
Qed.

Section DiscoveryEnds.

Variable N : Z.
Hypothesis HN : 0 <= N.
Hypothesis Hend : listingsEnd remote (OWNER cfg) N.

Lemma discoverLoop_total (fuel : nat) :
  forall isOrg page repos,
    (0 < fuel)%nat -> N + 1 < page + Z.of_nat fuel ->
    total (discoverLoop remote cfg fuel isOrg page repos).
Proof.
  induction fuel as [|fuel IH]; intros isOrg page repos Hpos Hfuel w; [lia|].
  rewrite discoverLoop_S.
  assert (HU : forall before w1,
            outcome (userPage remote cfg fuel page repos before w1) <> OutOfFuel).
  { intros before w1. unfold userPage.
    pose proof (Hend page w1) as Hempty.
    destruct (listForUser remote (OWNER cfg) 100 page w1) as [[u|e] w2];
      [|discriminate].
    destruct u as [|r u]; [discriminate|].
    rewrite outcome_prefixed. cbn [fst] in Hempty.
    assert (Hpage : page <= N) by (destruct (Z_lt_le_dec N page); [tauto|lia]).
    apply IH; lia. }
  pose proof (Hend page w) as Hempty.
  destruct (listForOrg remote (OWNER cfg) 100 page w) as [[d|e] w1].
  - destruct isOrg; [|apply HU].
    destruct d as [|r d]; [discriminate|].
    rewrite outcome_prefixed. cbn [fst] in Hempty.
    assert (Hpage : page <= N) by (destruct (Z_lt_le_dec N page); [tauto|lia]).
    apply IH; lia.
  - destruct (is404 (RemoteError e)); [apply HU|discriminate].
Qed.

Lemma listRepos_total (fuel : nat) :
  N < Z.of_nat fuel -> total (listRepos remote cfg fuel).
Proof.
  intros Hfuel w.
  destruct (REPOS_RAW cfg) as [|e0 rest] eqn:E.
  - rewrite (listRepos_auto remote cfg fuel w E), autoDiscoverRepos_run.
    destruct (Js.truthy (OWNER cfg)); [|discriminate].
    rewrite outcome_prefixed. apply discoverLoop_total; lia.
  - pose proof (listRepos_explicit remote cfg fuel w) as Hex. rewrite E in Hex.
    specialize (Hex ltac:(discriminate)).
    destruct (forallb (entryOk cfg) (e0 :: rest)).
    + rewrite Hex. discriminate.
    + destruct Hex as [[msg Hm] _]. rewrite Hm. discriminate.
Qed.

End DiscoveryEnds.

End DiscoveryMore.

Lemma no_user_listing_without_not_found (evs : list Event) :
  userAfterNotFound false evs ->
  Forall (fun ev => isOrgNotFound ev = false) evs ->
  Forall (fun ev => isUserListing ev = false) evs.
Proof.
  induction evs as [|ev evs IH]; intros Hu Hn; [constructor|].
  inversion Hn as [|x l Hev Hrest]; subst.
  destruct ev; cbn [userAfterNotFound isOrgNotFound] in *;
    try (constructor; [reflexivity|now apply IH]).
  - destruct r; [constructor; [reflexivity|now apply IH]|].
    rewrite Hev in Hu. constructor; [reflexivity|now apply IH].
  - destruct Hu as [Hu _]. discriminate.
Qed.

Section FlagFacts.

Context {W : Type}.
Variable remote : Remote W.
Variables cfg cfg' : Config.
Hypothesis Howner : OWNER cfg' = OWNER cfg.

Lemma sameCourse_prefixed {A} (evs : list Event)
    (r1 r2 : Outcome A * W * list Event) :
  sameCourse r1 r2 -> sameCourse (prefixed evs r1) (prefixed evs r2).
Proof.
  intros [Hev [Hw Ho]]. unfold sameCourse.
  rewrite !events_prefixed, !outcome_prefixed. cbn [world prefixed fst snd].
  now rewrite Hev.
Qed.

Lemma discoverLoop_course (fuel : nat) :
  forall isOrg page repos repos' (w : W),
    sameCourse (discoverLoop remote cfg fuel isOrg page repos w)
               (discoverLoop remote cfg' fuel isOrg page repos' w).
Proof.
  induction fuel as [|fuel IH]; intros isOrg page repos repos' w.
  - repeat split.
  - rewrite !discoverLoop_S, Howner.
    assert (HU : forall before w1,
      sameCourse (userPage remote cfg fuel page repos before w1)
                 (userPage remote cfg' fuel page repos' before w1)).
    { intros before w1. unfold userPage. rewrite Howner.
      destruct (listForUser remote (OWNER cfg) 100 page w1) as [[u|e] w2].
      - destruct u as [|r u]; [repeat split|].
        apply sameCourse_prefixed. apply IH.
      - repeat split. }
    destruct (listForOrg remote (OWNER cfg) 100 page w) as [[d|e] w1].
    + destruct isOrg; [|apply HU].
      destruct d as [|r d]; [repeat split|].
      apply sameCourse_prefixed. apply IH.
    + destruct (is404 (RemoteError e)); [apply HU|repeat split].
Qed.

Lemma autoDiscoverRepos_course (fuel : nat) (w : W) :
  sameCourse (autoDiscoverRepos remote cfg fuel w)
             (autoDiscoverRepos remote cfg' fuel w).
Proof.
  rewrite !autoDiscoverRepos_run, Howner.
  destruct (Js.truthy (OWNER cfg)); [|repeat split].
  apply sameCourse_prefixed. apply discoverLoop_course.
Qed.

End FlagFacts.

Lemma filter_all {A} (f : A -> bool) (l : list A) :
  (forall x, f x = true) -> filter f l = l.
Proof.
  intro H. induction l as [|x l IH]; [reflexivity|].
  cbn. now rewrite H, IH.
Qed.


(** X11. Discovery calls the user-style listing only after an
    organization-style listing was refused with not-found: when no
    organization-style listing is refused so, no user-style listing is
    made. *)
Theorem user_listing_only_after_not_found
    {W : Type} (remote : Remote W) (cfg : Config) (fuel : nat) (w : W) :
  userAfterNotFound false (events (autoDiscoverRepos remote cfg fuel w)) /\
  (Forall (fun ev => isOrgNotFound ev = false)
     (events (autoDiscoverRepos remote cfg fuel w)) ->
   Forall (fun ev => isUserListing ev = false)
     (events (autoDiscoverRepos remote cfg fuel w))).
Proof.
  assert (H : userAfterNotFound false
                (events (autoDiscoverRepos remote cfg fuel w))).
  { rewrite autoDiscoverRepos_run.
    destruct (Js.truthy (OWNER cfg)); [|exact I].
    rewrite events_prefixed. cbn [app userAfterNotFound].
    apply (discoverLoop_user_after remote cfg fuel true). }
  split; [exact H|]. now apply no_user_listing_without_not_found.
Qed.

(** X12. Discovery fails in two ways only: with the script's
    "owner required" error before any event when no owner is configured,
    or at a rejected listing, its last event, whose error it throws: an
    organization-style listing refused otherwise than with not-found, or
    a refused user-style listing, not-found included. *)
Theorem discovery_failures
    {W : Type} (remote : Remote W) (cfg : Config) (fuel : nat) (w : W)
    (e : Exn) :
  outcome (autoDiscoverRepos remote cfg fuel w) = Throw e ->
  (OWNER cfg = "" /\ e = ScriptError ownerRequiredMsg /\
   events (autoDiscoverRepos remote cfg fuel w) = []) \/
  (OWNER cfg <> "" /\
   exists pre ev err,
     events (autoDiscoverRepos remote cfg fuel w) = pre ++ [ev] /\
     fatalListing ev = true /\ rejection ev = Some err /\
     e = RemoteError err).
Proof.
  rewrite autoDiscoverRepos_run.
  destruct (Js.truthy (OWNER cfg)) eqn:Ho.
  - intro H. right. split; [now apply truthy_true|].
    apply (abortsAt_prefixed fatalListing _ _
             (discoverLoop_aborts remote cfg fuel true 1 [] w) e H).
  - intro H. left. cbn in H. inversion H.
    split; [now apply truthy_false|]. now split.
Qed.

Lemma discovery_failures_witness :
  outcome (autoDiscoverRepos (Demo.remoteOf MoreExamples.nobodySite)
             MoreExamples.nobodyCfg 5 tt)
    = Throw (RemoteError Demo.notFound) /\
  ((OWNER MoreExamples.nobodyCfg = "" /\
    RemoteError Demo.notFound = ScriptError ownerRequiredMsg /\
    events (autoDiscoverRepos (Demo.remoteOf MoreExamples.nobodySite)
              MoreExamples.nobodyCfg 5 tt) = []) \/
   (OWNER MoreExamples.nobodyCfg <> "" /\
    exists pre ev err,
      events (autoDiscoverRepos (Demo.remoteOf MoreExamples.nobodySite)
                MoreExamples.nobodyCfg 5 tt) = pre ++ [ev] /\
      fatalListing ev = true /\ rejection ev = Some err /\
      RemoteError Demo.notFound = RemoteError err)).
Proof.
  split; [reflexivity|].
  apply (discovery_failures (Demo.remoteOf MoreExamples.nobodySite)
           MoreExamples.nobodyCfg 5 tt). reflexivity.
Defined.

(** X13. The include flags change no call of discovery: with any flags
    it makes the same listing calls, ends in the same world and fails
    with the same error; and what it returns is what it returns with both
    flags on, filtered. *)
Theorem include_flags_only_filter
    {W : Type} (remote : Remote W) (cfg : Config) (fuel : nat) (w : W) :
  let plain := autoDiscoverRepos remote cfg fuel w in
  let full := autoDiscoverRepos remote (withIncludes true true cfg) fuel w in
  sameCourse plain full /\
  (forall all,
     outcome full = Done all ->
     exists entries,
       all = map toRef entries /\
       outcome plain = Done (map toRef (filter (keepRepo cfg) entries))).
Proof.
  intros plain full.
  assert (Hc : sameCourse plain full).
  { apply autoDiscoverRepos_course. reflexivity. }
  split; [exact Hc|]. intros all Hall.
  destruct Hc as [Hev [_ Ho]].
  subst plain full. revert Hev Ho Hall.
  rewrite !autoDiscoverRepos_run.
  change (OWNER (withIncludes true true cfg)) with (OWNER cfg).
  destruct (Js.truthy (OWNER cfg)); [|discriminate].
  rewrite !outcome_prefixed, !events_prefixed. intros Hev Ho Hall.
  apply app_inv_head in Hev.
  pose proof (discoverLoop_result remote (withIncludes true true cfg)
                fuel true 1 [] w all Hall) as Hfull.
  rewrite Hall in Ho.
  destruct (outcome (discoverLoop remote cfg fuel true 1 [] w))
    as [res|e|] eqn:Hres; try contradiction.
  pose proof (discoverLoop_result remote cfg fuel true 1 [] w res Hres) as Hplain.
  exists (pagesUsed true
            (events (discoverLoop remote (withIncludes true true cfg)
                       fuel true 1 [] w))).
  split.
  - rewrite Hfull at 1. cbn [app]. f_equal. now apply filter_all.
  - rewrite Hplain at 1. cbn [app]. now rewrite Hev.
Qed.

(** X14. When the listings of repositories and of pull requests have no
    entry from some page on, a run with more fuel than that page is never
    cut off: it returns or fails. *)
Theorem run_ends
    {W : Type} (remote : Remote W) (fmt : NumFmt) (cfg : Config)
    (fuel : nat) (N : Z) (w : W) :
  0 <= N ->
  listingsEnd remote (OWNER cfg) N ->
  pagesEnd remote N ->
  N < Z.of_nat fuel ->
  outcome (main remote fmt cfg fuel w) = Done tt \/
  exists e, outcome (main remote fmt cfg fuel w) = Throw e /\
            outcome (listRepos remote cfg fuel w) = Throw e.
Proof.
  intros HN Hlist Hpages Hfuel.
  pose proof (listRepos_total remote cfg N HN Hlist fuel Hfuel w) as Htot.
  destruct (outcome (listRepos remote cfg fuel w)) as [repos|e|] eqn:Hres;
    [| |contradiction].
  - left. rewrite (main_run remote fmt cfg fuel w repos Hres). cbv zeta.
    now rewrite (forEach_processRepo_done remote fmt cfg fuel N repos
                   HN Hpages Hfuel).
  - right. exists e. split; [|reflexivity].
    now rewrite (main_resolution_failure remote cfg fmt fuel w e Hres).
Qed.

Lemma run_ends_witness :
  outcome (main (Demo.remoteOf MoreExamples.orgSite) Demo.fmt
             MoreExamples.orgCfg 5 tt) = Done tt \/
  exists e,
    outcome (main (Demo.remoteOf MoreExamples.orgSite) Demo.fmt
               MoreExamples.orgCfg 5 tt) = Throw e /\
    outcome (listRepos (Demo.remoteOf MoreExamples.orgSite)
               MoreExamples.orgCfg 5 tt) = Throw e.
Proof.
  apply (run_ends (Demo.remoteOf MoreExamples.orgSite) Demo.fmt
           MoreExamples.orgCfg 5 2 tt).
  - lia.
  - intros page w Hlt. cbn.
    destruct (Z.eqb_spec page 1); [lia|].
    destruct (Z.eqb_spec page 2); [lia|]. tauto.
  - intros q w Hlt. cbn. unfold Demo.pullsOf, Demo.onePage, Examples.closedPages.
    destruct (q_state q).
    + destruct (Z.eqb_spec (q_page q) 1); [lia|exact I].
    + destruct (Z.eqb_spec (q_page q) 1); [lia|].
      destruct (Z.eqb_spec (q_page q) 2); [lia|exact I].
  - cbn. lia.
Defined.

(** ** Which reviews are listed *)

Lemma reviewCalls_app (a b : list Event) :
  reviewCalls (a ++ b) = reviewCalls a ++ reviewCalls b.
Proof.
  induction a as [|ev a IH]; [reflexivity|].
  cbn [app]. destruct ev; cbn [reviewCalls app]; auto. now rewrite IH.
Qed.

Lemma reviewCalls_none (evs : list Event) :
  Forall (fun ev => isReviewListing ev = false) evs -> reviewCalls evs = [].
Proof.
  induction 1 as [|ev evs Hev _ IH]; [reflexivity|].
  destruct ev; cbn [reviewCalls]; auto. discriminate.
Qed.

Lemma fetched_none (evs : list Event) :
  Forall (fun ev => isPulls ev = false) evs -> fetched evs = [].
Proof.
  induction 1 as [|ev evs Hev _ IH]; [reflexivity|].
  destruct ev; cbn [fetched]; auto. discriminate.
Qed.

Lemma prefixOf_refl {A} (l : list A) : prefixOf l l.
Proof. exists []. now rewrite app_nil_r. Qed.

Lemma prefixOf_app {A} (c a b : list A) :
  prefixOf a b -> prefixOf (c ++ a) (c ++ b).
Proof. intros [rest ->]. exists rest. now rewrite app_assoc. Qed.

Lemma prefixOf_weaken {A} (a b c : list A) : prefixOf a b -> prefixOf a (b ++ c).
Proof. intros [rest ->]. exists (rest ++ c). now rewrite app_assoc. Qed.

Section ReviewCallFacts.

Context {W : Type}.
Variable remote : Remote W.
Variable fmt : NumFmt.
Variable cfg : Config.

Lemma remindReviewers_no_listing o repo pr reviews rs :
  evAll (fun ev => isReviewListing ev = false)
    (forEach rs (remindReviewer remote fmt cfg o repo pr reviews)).
Proof.
  apply evAll_forEach. intros r _. unfold remindReviewer. ev_auto.
Qed.

Lemma remindPr_calls o repo pr (w : W) :
  reviewCalls (events (remindPr remote fmt cfg o repo pr w)) =
  if hasReviewers pr then [number pr] else [].
Proof.
  rewrite remindPr_run. unfold hasReviewers.
  destruct (requested_reviewers pr) as [|r rs]; [reflexivity|].
  destruct (listReviews remote o repo (number pr) w) as [[reviews|e] w1];
    [|reflexivity].
  rewrite events_prefixed. cbn [app reviewCalls].
  now rewrite (reviewCalls_none _
                 (remindReviewers_no_listing o repo pr reviews (r :: rs) w1)).
Qed.

Lemma remindPrs_calls o repo (prs : list PullRequest) :
  forall (w : W),
    let run := forEach prs (remindPr remote fmt cfg o repo) w in
    prefixOf (reviewCalls (events run)) (map number (filter hasReviewers prs)) /\
    (forall u, outcome run = Done u ->
               reviewCalls (events run) = map number (filter hasReviewers prs)).
Proof.
  induction prs as [|p prs IH]; intros w run.
  - split; [apply prefixOf_refl|reflexivity].
  - subst run. rewrite forEach_cons.
    pose proof (remindPr_calls o repo p w) as Hp.
    assert (Hmap : map number (filter hasReviewers (p :: prs)) =
                   (if hasReviewers p then [number p] else []) ++
                   map number (filter hasReviewers prs)).
    { cbn [filter]. now destruct (hasReviewers p). }
    rewrite Hmap.
    destruct (remindPr remote fmt cfg o repo p w) as [[[a|e|] w1] ev1];
      cbn [events snd] in Hp.
    + rewrite events_prefixed, outcome_prefixed, reviewCalls_app, Hp.
      destruct (IH w1) as [Hpre Heq]. split.
      * now apply prefixOf_app.
      * intros u Hu. now rewrite (Heq u Hu).
    + cbn [events outcome fst snd]. rewrite Hp. split; [|discriminate].
      rewrite <- (app_nil_r (if hasReviewers p then _ else _)) at 1.
      apply prefixOf_app. now exists (map number (filter hasReviewers prs)).
    + cbn [events outcome fst snd]. rewrite Hp. split; [|discriminate].
      rewrite <- (app_nil_r (if hasReviewers p then _ else _)) at 1.
      apply prefixOf_app. now exists (map number (filter hasReviewers prs)).
Qed.

Lemma reviewerLoop_calls (fuel : nat) o repo :
  forall (page : Z) (w : W),
    let run := reviewerLoop remote fmt cfg fuel o repo page w in
    prefixOf (reviewCalls (events run))
             (map number (filter hasReviewers (fetched (events run)))) /\
    (forall u, outcome run = Done u ->
               reviewCalls (events run)
                 = map number (filter hasReviewers (fetched (events run)))).
Proof.
  induction fuel as [|fuel IH]; intros page w run.
  - split; [apply prefixOf_refl|discriminate].
  - subst run. cbn [reviewerLoop]. rewrite bind_run. unfold await.
    destruct (pullsList remote (openQuery o repo page) w) as [[prs|e] w1].
    + destruct prs as [|p ps].
      * split; [apply prefixOf_refl|reflexivity].
      * remember (p :: ps) as prs eqn:Eprs. clear Eprs.
        rewrite events_prefixed, outcome_prefixed, bind_run.
        cbn [app reviewCalls fetched].
        destruct (remindPrs_calls o repo prs w1) as [Hpre Heq].
        pose proof (fetched_none _ (remindPrs_no_listing remote fmt cfg o repo prs w1))
          as Hnone.
        destruct (forEach prs (remindPr remote fmt cfg o repo) w1)
          as [[[a|e|] w2] ev2]; cbn [events outcome fst snd] in *.
        -- rewrite events_prefixed, outcome_prefixed, reviewCalls_app,
             fetched_app, Hnone. cbn [app].
           rewrite filter_app, map_app, (Heq a eq_refl).
           destruct (IH (page + 1) w2) as [Hpre2 Heq2]. split.
           ++ now apply prefixOf_app.
           ++ intros u Hu. now rewrite (Heq2 u Hu).
        -- rewrite Hnone, app_nil_r. split; [exact Hpre|discriminate].
        -- rewrite Hnone, app_nil_r. split; [exact Hpre|discriminate].
    + split; [apply prefixOf_refl|discriminate].
Qed.

End ReviewCallFacts.

(** X15. In a reviewer scan the reviews are listed once for each pull
    request of the received pages that has requested reviewers, in the
    order received, and for no other: all of them when the scan returns,
    the first of them when it fails or is cut off. *)
Theorem reviews_listed_once_per_pull_request
    {W : Type} (remote : Remote W) (fmt : NumFmt) (cfg : Config)
    (fuel : nat) (o repo : string) (w : W) :
  let run := notifyInactiveReviewers remote fmt cfg fuel o repo w in
  prefixOf (reviewCalls (events run))
           (map number (filter hasReviewers (fetched (events run)))) /\
  (outcome run = Done tt ->
   reviewCalls (events run)
     = map number (filter hasReviewers (fetched (events run)))).
Proof.
  intro run. subst run. unfold notifyInactiveReviewers.
  rewrite bind_run. unfold log, emit.
  rewrite events_prefixed, outcome_prefixed. cbn [app reviewCalls fetched].
  destruct (reviewerLoop_calls remote fmt cfg fuel o repo 1 w) as [Hpre Heq].
  split; [exact Hpre|]. intro Hd. exact (Heq tt Hd).
Qed.

(** ** What the branch scan looks up and posts *)

Lemma lookups_app (a b : list Event) :
  lookups (a ++ b) = lookups a ++ lookups b.
Proof.
  induction a as [|ev a IH]; [reflexivity|].
  cbn [app]. destruct ev; cbn [lookups app]; auto. now rewrite IH.
Qed.

Lemma refErrorLog_plain (branchName : string) (e : RequestError) :
  lookups (refErrorLog branchName e) = [] /\
  filter isComment (refErrorLog branchName e) = [] /\
  filter isRefFound (refErrorLog branchName e) = [].
Proof. unfold refErrorLog. now destruct (is404 (RemoteError e)). Qed.

Section BranchScanFacts.

Context {W : Type}.
Variable remote : Remote W.
Variable cfg : Config.

(** The number of comment calls a found ref leads to. *)
Let posts (found : nat) : nat := if DRY_RUN cfg then 0%nat else found.

Lemma cleanupPr_counts o repo since pr any (w : W) :
  let evs := events (cleanupPr remote cfg o repo since pr any w) in
  lookups evs = (if toLookUp since pr then [headRef pr] else []) /\
  List.length (filter isComment evs)
    = posts (List.length (filter isRefFound evs)).
Proof.
  cbv zeta. rewrite cleanupPr_run. unfold toLookUp, posts.
  destruct (withinWindow since pr); [|now destruct (DRY_RUN cfg)].
  destruct (isMerged pr); [|now destruct (DRY_RUN cfg)].
  cbn [andb].
  destruct (getRef remote o repo (headRef pr) w) as [[a|e] w1].
  - cbv zeta. destruct (DRY_RUN cfg); [split; reflexivity|].
    destruct (createComment remote o repo (number pr) _ w1) as [[c|e] w2];
      [split; reflexivity|].
    destruct (refErrorLog_plain (head_ref pr) e) as [Hl [Hc Hf]].
    cbn [events snd app lookups filter isComment isRefFound].
    rewrite Hl, Hc, Hf. split; reflexivity.
  - destruct (refErrorLog_plain (head_ref pr) e) as [Hl [Hc Hf]].
    cbn [events snd lookups filter isComment isRefFound].
    rewrite Hl, Hc, Hf. now destruct (DRY_RUN cfg).
Qed.

Lemma posts_add (a b : nat) : (posts a + posts b)%nat = posts (a + b).
Proof. unfold posts. now destruct (DRY_RUN cfg). Qed.

Lemma cleanupPage_counts o repo since (prs : list PullRequest) :
  forall any (w : W),
    let evs := events (cleanupPage remote cfg o repo since prs any w) in
    lookups evs = map headRef (filter (toLookUp since) prs) /\
    List.length (filter isComment evs)
      = posts (List.length (filter isRefFound evs)).
Proof.
  induction prs as [|pr rest IH]; intros any w.
  - cbv zeta. cbn. split; [reflexivity|]. unfold posts. now destruct (DRY_RUN cfg).
  - cbv zeta. rewrite cleanupPage_cons, events_prefixed.
    destruct (cleanupPr_counts o repo since pr any w) as [Hl Hc].
    destruct (IH (if withinWindow since pr then true else any)
                 (world (cleanupPr remote cfg o repo since pr any w)))
      as [Hl2 Hc2].
    rewrite lookups_app, !filter_app, !length_app, Hl, Hl2, Hc, Hc2, posts_add.
    split; [|reflexivity]. cbn [filter].
    now destruct (toLookUp since pr).
Qed.

Lemma cleanupLoop_counts (fuel : nat) o repo since :
  forall (page : Z) (w : W),
    let evs := events (cleanupLoop remote cfg fuel o repo since page w) in
    lookups evs = map headRef (filter (toLookUp since) (fetched evs)) /\
    List.length (filter isComment evs)
      = posts (List.length (filter isRefFound evs)).
Proof.
  induction fuel as [|fuel IH]; intros page w.
  - cbv zeta. cbn. split; [reflexivity|]. unfold posts. now destruct (DRY_RUN cfg).
  - cbv zeta. rewrite cleanupLoop_S.
    destruct (pullsList remote (closedQuery o repo page) w) as [[prs|e] w1].
    + cbv zeta. destruct (existsb (withinWindow since) prs) eqn:Hany.
      * rewrite events_prefixed. cbn [app lookups fetched filter isComment isRefFound].
        destruct (cleanupPage_counts o repo since prs false w1) as [Hl Hc].
        destruct (IH (page + 1)
                    (world (cleanupPage remote cfg o repo since prs false w1)))
          as [Hl2 Hc2].
        rewrite lookups_app, fetched_app, cleanupPage_fetched.
        cbn [app]. rewrite !filter_app, map_app, !length_app.
        rewrite Hl, Hl2, Hc, Hc2, posts_add. split; reflexivity.
      * cbn [events snd lookups fetched filter isComment isRefFound].
        rewrite app_nil_r. split.
        -- assert (Hnone : filter (toLookUp since) prs = []).
           { clear -Hany. induction prs as [|p ps IHp]; [reflexivity|].
             cbn [existsb] in Hany. apply orb_false_elim in Hany.
             destruct Hany as [Hp Hps]. cbn [filter]. unfold toLookUp at 1.
             rewrite Hp. cbn [andb]. now apply IHp. }
           now rewrite Hnone.
        -- unfold posts. now destruct (DRY_RUN cfg).
    + cbn. split; [reflexivity|]. unfold posts. now destruct (DRY_RUN cfg).
Qed.

End BranchScanFacts.

(** X16. In a branch scan, whatever its outcome, the refs looked up are
    the head branches of the merged pull requests of the received pages
    that were updated at or after the start of the window, each once and
    in the order received. *)
Theorem branch_lookups_exact
    {W : Type} (remote : Remote W) (cfg : Config)
    (fuel : nat) (o repo : string) (w : W) :
  let since :=
    fst (dateNow remote w) - MAX_CLOSED_LOOKBACK_DAYS cfg * 86400000 in
  let evs := events (notifyUndeletedBranches remote cfg fuel o repo w) in
  lookups evs = map headRef (filter (toLookUp since) (fetched evs)).
Proof.
  cbv zeta. rewrite notifyUndeletedBranches_run, events_prefixed.
  cbn [app lookups fetched].
  apply (cleanupLoop_counts remote cfg fuel o repo).
Qed.

(** X17. In a live branch scan there are exactly as many comment calls
    as ref lookups that found the ref; in a dry run there is none. *)
Theorem one_comment_per_found_branch
    {W : Type} (remote : Remote W) (cfg : Config)
    (fuel : nat) (o repo : string) (w : W) :
  let evs := events (notifyUndeletedBranches remote cfg fuel o repo w) in
  List.length (filter isComment evs) =
  if DRY_RUN cfg then 0%nat else List.length (filter isRefFound evs).
Proof.
  cbv zeta. rewrite notifyUndeletedBranches_run, events_prefixed.
  cbn [app filter isComment isRefFound].
  apply (cleanupLoop_counts remote cfg fuel o repo).
Qed.

(** ** What aborts a scan *)

Lemma safe_log {W : Type} (e : Event) : safe (emit (W:=W) e).
Proof. intros w e'. discriminate. Qed.

Section AbortFacts.

Context {W : Type}.
Variable K : Event -> bool.

Lemma abortsAtAll_safe {A} (m : M W A) : safe m -> abortsAtAll K m.
Proof. intros Hs w e He. now destruct (Hs w e). Qed.

Lemma abortsAtAll_await {A} (call : W -> Resp A * W) (ev : Resp A -> Event) :
  (forall e, K (ev (Err e)) = true /\ rejection (ev (Err e)) = Some e) ->
  abortsAtAll K (await call ev).
Proof.
  intros H w e. unfold await.
  destruct (call w) as [[a|e'] w1]; cbn; intro He; [discriminate|].
  inversion He; subst. exists [], (ev (Err e')), e'.
  destruct (H e') as [Hk Hr]. now repeat split.
Qed.

Lemma abortsAtAll_bind {A B} (m : M W A) (k : A -> M W B) :
  abortsAtAll K m -> (forall a, abortsAtAll K (k a)) -> abortsAtAll K (bind m k).
Proof.
  intros Hm Hk w. rewrite bind_run. specialize (Hm w).
  destruct (m w) as [[[a|e|] w1] ev1].
  - apply abortsAt_prefixed. apply Hk.
  - intros e' He'. cbn in He'. inversion He'; subst.
    destruct (Hm e' eq_refl) as [pre [ev [err Hrest]]].
    exists pre, ev, err. exact Hrest.
  - intros e' He'. discriminate.
Qed.

Lemma abortsAtAll_forEach {A} (xs : list A) (body : A -> M W unit) :
  (forall x, abortsAtAll K (body x)) -> abortsAtAll K (forEach xs body).
Proof.
  intro H. induction xs as [|x xs IH]; cbn [forEach].
  - apply abortsAtAll_safe. apply safe_ret.
  - apply abortsAtAll_bind; auto.
Qed.

End AbortFacts.

Section ScanAbortFacts.

Context {W : Type}.
Variable remote : Remote W.
Variable fmt : NumFmt.
Variable cfg : Config.

Lemma safe_now : safe (now remote).
Proof. intros w e. unfold now. destruct (dateNow remote w). discriminate. Qed.

Lemma remindPr_aborts o repo pr :
  abortsAtAll anyCall (remindPr remote fmt cfg o repo pr).
Proof.
  unfold remindPr. destruct (requested_reviewers pr) as [|r rs].
  - apply abortsAtAll_safe. apply safe_ret.
  - apply abortsAtAll_bind; [apply abortsAtAll_await; now split|].
    intro reviews. apply abortsAtAll_forEach. intro x.
    unfold remindReviewer.
    apply abortsAtAll_bind; [apply abortsAtAll_safe, safe_now|]. intro t.
    destruct (_ && _); [|apply abortsAtAll_safe, safe_ret].
    destruct (DRY_RUN cfg); [apply abortsAtAll_safe, safe_log|].
    apply abortsAtAll_bind; [apply abortsAtAll_await; now split|].
    intros _. apply abortsAtAll_safe, safe_log.
Qed.

Lemma reviewerLoop_aborts (fuel : nat) o repo :
  forall page, abortsAtAll anyCall (reviewerLoop remote fmt cfg fuel o repo page).
Proof.
  induction fuel as [|fuel IH]; intro page; cbn [reviewerLoop].
  - intros w e He. discriminate.
  - apply abortsAtAll_bind; [apply abortsAtAll_await; now split|].
    intro prs. destruct prs as [|p ps]; [apply abortsAtAll_safe, safe_ret|].
    apply abortsAtAll_bind; [|intros _; apply IH].
    apply abortsAtAll_forEach. intro x. apply remindPr_aborts.
Qed.

Lemma cleanupLoop_aborts (fuel : nat) o repo since :
  forall page, abortsAtAll isPulls (cleanupLoop remote cfg fuel o repo since page).
Proof.
  induction fuel as [|fuel IH]; intro page; cbn [cleanupLoop].
  - intros w e He. discriminate.
  - apply abortsAtAll_bind; [apply abortsAtAll_await; now split|].
    intro prs. destruct prs as [|p ps]; [apply abortsAtAll_safe, safe_ret|].
    apply abortsAtAll_bind.
    + apply abortsAtAll_safe. intros w e. rewrite cleanupPage_done. discriminate.
    + intro any. destruct (negb any); [apply abortsAtAll_safe, safe_ret|apply IH].
Qed.

End ScanAbortFacts.

(** X18. A scan that throws does so at a rejected remote call, which is
    its last event and whose error it throws.  For the branch scan that
    call is always the listing of the closed pull requests: no rejected
    ref lookup or comment aborts it. *)
Theorem scans_abort_at_rejections
    {W : Type} (remote : Remote W) (fmt : NumFmt) (cfg : Config)
    (fuel : nat) (o repo : string) (w : W) :
  abortsAt anyCall (notifyInactiveReviewers remote fmt cfg fuel o repo w) /\
  abortsAt isPulls (notifyUndeletedBranches remote cfg fuel o repo w).
Proof.
  split.
  - unfold notifyInactiveReviewers.
    apply (abortsAtAll_bind anyCall);
      [apply abortsAtAll_safe, safe_log|intros _; apply reviewerLoop_aborts].
  - rewrite notifyUndeletedBranches_run. apply abortsAt_prefixed.
    apply cleanupLoop_aborts.
Qed.

(** ** The target line and the persistence of reminders *)

Lemma split_join (sep : ascii) (s : string) :
  String.concat (String sep EmptyString) (Js.split sep s) = s.
Proof.
  induction s as [|c rest IH]; [reflexivity|].
  cbn [Js.split].
  destruct (Ascii.eqb_spec c sep) as [->|Hne].
  - destruct (Js.split sep rest) as [|h t] eqn:E;
      [now destruct (split_not_nil sep rest)|].
    cbn [String.concat append] in *. now rewrite IH.
  - destruct (Js.split sep rest) as [|h t] eqn:E;
      [now destruct (split_not_nil sep rest)|].
    destruct t as [|h' t']; cbn [String.concat append] in *; now rewrite IH.
Qed.

Lemma accepted_label (cfg : Config) (e : string) :
  entryOk cfg e = true -> repoLabel (entryRef cfg e) = entryLabel cfg e.
Proof.
  unfold entryOk, entryRef, entryLabel, repoLabel.
  pose proof (split_join "/" e) as Hj.
  destruct (Js.split "/" e) as [|p0 [|p1 [|p2 ps]]]; try discriminate.
  - intros _. reflexivity.
  - intros _. cbn [owner name]. cbn [String.concat] in Hj. exact Hj.
Qed.

Lemma hoursSince_mono (t t' created : Z) :
  t <= t' -> (hoursSince t created <= hoursSince t' created)%Q.
Proof. intro H. unfold hoursSince, Qle. cbn. nia. Qed.

Lemma stale_persists (cfg : Config) (reviews reviews' : list Review)
    (reviewer : string) (t t' created : Z) :
  t <= t' -> incl reviews' reviews ->
  stale cfg reviews reviewer (hoursSince t created) = true ->
  stale cfg reviews' reviewer (hoursSince t' created) = true.
Proof.
  intros Ht Hincl Hs. apply stale_iff in Hs. destruct Hs as [Hno Hlt].
  apply stale_iff. split.
  - intros [r [Hin Hu]]. apply Hno. exists r. split; [now apply Hincl|exact Hu].
  - eapply Qlt_le_trans; [exact Hlt|now apply hoursSince_mono].
Qed.

(** X19. With an accepted explicit list, the first thing [main] does is
    to log the target line, which shows the entries in order, joined by
    ", ", each as written when it has the form [owner/name] and with the
    configured owner put in front when it is a bare name. *)
Theorem target_line_shows_entries
    {W : Type} (remote : Remote W) (fmt : NumFmt) (cfg : Config)
    (fuel : nat) (w : W) :
  REPOS_RAW cfg <> [] ->
  ~ ConfigurationFailure cfg ->
  exists rest,
    events (main remote fmt cfg fuel w) =
    Log ["Target repositories:";
         String.concat ", " (map (entryLabel cfg) (REPOS_RAW cfg))] :: rest.
Proof.
  intros Hne Hok.
  pose proof (listRepos_explicit remote cfg fuel w Hne) as Hex.
  pose proof (entries_rejected cfg) as Hrej.
  destruct (forallb (entryOk cfg) (REPOS_RAW cfg)) eqn:Hall.
  - assert (Hres : outcome (listRepos remote cfg fuel w)
                   = Done (map (entryRef cfg) (REPOS_RAW cfg)))
      by now rewrite Hex.
    rewrite (main_run remote fmt cfg fuel w _ Hres). cbv zeta.
    rewrite Hex. cbn [events world fst snd app].
    assert (Hlab : map repoLabel (map (entryRef cfg) (REPOS_RAW cfg))
                   = map (entryLabel cfg) (REPOS_RAW cfg)).
    { rewrite map_map. apply map_ext_in. intros e He. apply accepted_label.
      rewrite forallb_forall in Hall. now apply Hall. }
    rewrite Hlab.
    destruct (outcome (forEach _ _ w)); now eexists.
  - exfalso. apply Hok. right. now apply Hrej.
Qed.

Lemma target_line_shows_entries_witness :
  exists rest,
    events (main (Demo.remoteOf Examples.mixedSite) Demo.fmt
              Examples.mixedCfg 5 tt) =
    Log ["Target repositories:";
         String.concat ", "
           (map (entryLabel Examples.mixedCfg) (REPOS_RAW Examples.mixedCfg))]
    :: rest.
Proof.
  apply (target_line_shows_entries (Demo.remoteOf Examples.mixedSite) Demo.fmt
           Examples.mixedCfg 5 tt).
  - vm_compute. discriminate.
  - intros [[H _]|[[e [Hin [_ Ho]]]|[e [Hin Hs]]]].
    + vm_compute in H. discriminate.
    + vm_compute in Ho. discriminate.
    + vm_compute in Hin. unfold overSplit in Hs.
      destruct Hin as [<-|[<-|[]]]; vm_compute in Hs; lia.
Defined.

(** X20. A reminder persists: when the iteration for a reviewer emits a
    reminder, the same iteration at a later reading of the clock, with
    reviews that hold nothing new, emits one as well. *)
Theorem reminder_persists
    {W : Type} (remote : Remote W) (fmt : NumFmt) (cfg : Config)
    (o repo : string) (pr : PullRequest) (reviews reviews' : list Review)
    (reviewer : string) (w w' : W) :
  fst (dateNow remote w) <= fst (dateNow remote w') ->
  incl reviews' reviews ->
  events (remindReviewer remote fmt cfg o repo pr reviews reviewer w) <> [] ->
  events (remindReviewer remote fmt cfg o repo pr reviews' reviewer w') <> [].
Proof.
  intros Ht Hincl. rewrite !remindReviewer_run.
  destruct (dateNow remote w) as [t w1]. destruct (dateNow remote w') as [t' w1'].
  cbn [fst] in Ht. cbv zeta.
  destruct (stale cfg reviews reviewer _) eqn:Hs; [|intro H; now destruct H].
  rewrite (stale_persists cfg reviews reviews' reviewer t t' (created_at pr)
             Ht Hincl Hs).
  intros _.
  destruct (DRY_RUN cfg); [discriminate|].
  destruct (createComment remote o repo (number pr) _ w1') as [[a|e] w2];
    discriminate.
Qed.

Lemma reminder_persists_witness :
  events (remindReviewer (Demo.remoteOf Demo.emptySite) Demo.fmt
            Examples.dryCfg "acme" "web" (Demo.openPr 1 13 ["bob"])
            [] "bob" tt) <> [].
Proof.
  apply (reminder_persists (Demo.remoteOf Demo.emptySite) Demo.fmt
           Examples.dryCfg "acme" "web" (Demo.openPr 1 13 ["bob"])
           [mkReview (Some "carol")] [] "bob" tt tt).
  - cbn. lia.
  - intros x [].
  - vm_compute. discriminate.
Defined.

(** ** The entries of the explicit list *)















(** ** The comments of the branch scan *)

Section CleanupCommentFacts.

Context {W : Type}.
Variable remote : Remote W.
Variable cfg : Config.

Lemma refErrorLog_no_call (branchName : string) (e : RequestError) (ev : Event) :
  isComment ev = true -> ~ In ev (refErrorLog branchName e).
Proof.
  intro Hc. unfold refErrorLog. destruct (is404 (RemoteError e)); cbn; [tauto|].
  intros [H|[]]. subst ev. discriminate.
Qed.

Lemma cleanupPr_comments o repo since pr any (w : W) (ev : Event) :
  isComment ev = true ->
  In ev (events (cleanupPr remote cfg o repo since pr any w)) ->
  toLookUp since pr = true /\
  exists a r,
    In (GetRef o repo (headRef pr) (Ok a))
       (events (cleanupPr remote cfg o repo since pr any w)) /\
    ev = CreateComment o repo (number pr)
           (branchBody (user_login pr) (head_ref pr)) r.
Proof.
  intro Hc. rewrite cleanupPr_run. unfold toLookUp.
  destruct (withinWindow since pr); [|intros []].
  destruct (isMerged pr); [|intros []].
  destruct (getRef remote o repo (headRef pr) w) as [[a|e] w1].
  - cbv zeta. destruct (DRY_RUN cfg).
    + intros [H|[H|[]]]; subst ev; discriminate.
    + destruct (createComment remote o repo (number pr) _ w1) as [[c|e] w2].
      * intros [H|[H|[H|[]]]]; subst ev; try discriminate.
        split; [reflexivity|]. exists a. eexists. split; [now left|reflexivity].
      * cbn [events snd app]. intros [H|[H|H]]; try (subst ev; discriminate).
        -- subst ev. split; [reflexivity|]. exists a. eexists.
           split; [now left|reflexivity].
        -- now apply refErrorLog_no_call in H.
  - cbn [events snd]. intros [H|H]; [subst ev; discriminate|].
    now apply refErrorLog_no_call in H.
Qed.

Lemma justifiedCleanup_weaken o repo since (pre evs post : list Event) ev :
  justifiedCleanup o repo since evs ev ->
  justifiedCleanup o repo since (pre ++ evs ++ post) ev.
Proof.
  intros [pr [a [r [Hpr [Hl [Hg Hev]]]]]].
  exists pr, a, r. rewrite !fetched_app. repeat split; auto.
  - apply in_or_app. right. apply in_or_app. now left.
  - apply in_or_app. right. apply in_or_app. now left.
Qed.

Lemma cleanupPage_comments o repo since (prs : list PullRequest) :
  forall any (w : W) (ev : Event),
    isComment ev = true ->
    In ev (events (cleanupPage remote cfg o repo since prs any w)) ->
    exists pr a r,
      In pr prs /\ toLookUp since pr = true /\
      In (GetRef o repo (headRef pr) (Ok a))
         (events (cleanupPage remote cfg o repo since prs any w)) /\
      ev = CreateComment o repo (number pr)
             (branchBody (user_login pr) (head_ref pr)) r.
Proof.
  induction prs as [|p prs IH]; intros any w ev Hc; [intros []|].
  rewrite cleanupPage_cons, events_prefixed, in_app_iff. intros [H|H].
  - destruct (cleanupPr_comments o repo since p any w ev Hc H)
      as [Hl [a [r [Hg Hev]]]].
    exists p, a, r. repeat split; auto; [now left|].
    apply in_or_app. now left.
  - destruct (IH _ _ ev Hc H) as [pr [a [r [Hin [Hl [Hg Hev]]]]]].
    exists pr, a, r. repeat split; auto; [now right|].
    apply in_or_app. now right.
Qed.

Lemma cleanupLoop_comments (fuel : nat) o repo since :
  forall (page : Z) (w : W) (ev : Event),
    isComment ev = true ->
    In ev (events (cleanupLoop remote cfg fuel o repo since page w)) ->
    justifiedCleanup o repo since
      (events (cleanupLoop remote cfg fuel o repo since page w)) ev.
Proof.
  induction fuel as [|fuel IH]; intros page w ev Hc; [intros []|].
  rewrite cleanupLoop_S.
  destruct (pullsList remote (closedQuery o repo page) w) as [[prs|e] w1].
  - cbv zeta. destruct (existsb (withinWindow since) prs).
    + rewrite events_prefixed. cbn [app].
      intros [H|H]; [subst ev; discriminate|].
      apply in_app_iff in H. destruct H as [H|H].
      * destruct (cleanupPage_comments o repo since prs false w1 ev Hc H)
          as [pr [a [r [Hin [Hl [Hg Hev]]]]]].
        exists pr, a, r. cbn [fetched]. repeat split; auto.
        -- apply in_or_app. now left.
        -- right. apply in_or_app. now left.
      * specialize (IH _ _ ev Hc H).
        rewrite <- (app_nil_r (events (cleanupLoop _ _ _ _ _ _ _ _))).
        now apply (justifiedCleanup_weaken o repo since
                     (PullsList (closedQuery o repo page) (Ok prs)
                      :: events (cleanupPage remote cfg o repo since prs false w1))
                     _ [] ev).
    + intros [H|[]]. subst ev. discriminate.
  - intros [H|[]]. subst ev. discriminate.
Qed.

End CleanupCommentFacts.

(** X23. Every comment call of a branch scan carries the clean-up text
    of a merged pull request of a received page that was updated within
    the window, is posted on that pull request, and comes with a lookup
    of its head branch that found the ref: no comment is posted for a
    branch that was not found. *)
Theorem cleanup_comments_are_justified
    {W : Type} (remote : Remote W) (cfg : Config)
    (fuel : nat) (o repo : string) (w : W) (ev : Event) :
  let since :=
    fst (dateNow remote w) - MAX_CLOSED_LOOKBACK_DAYS cfg * 86400000 in
  let evs := events (notifyUndeletedBranches remote cfg fuel o repo w) in
  isComment ev = true -> In ev evs -> justifiedCleanup o repo since evs ev.
Proof.
  cbv zeta. rewrite notifyUndeletedBranches_run, events_prefixed. cbn [app].
  intros Hc [H|H]; [subst ev; discriminate|].
  pose proof (cleanupLoop_comments remote cfg fuel o repo _ 1 _ ev Hc H) as Hj.
  rewrite <- (app_nil_r (events (cleanupLoop _ _ _ _ _ _ _ _))).
  now apply (justifiedCleanup_weaken o repo _ [Log _] _ [] ev).
Qed.

Lemma cleanup_comments_are_justified_witness :
  justifiedCleanup "acme" "web" Examples.since14
    (events (notifyUndeletedBranches (Demo.remoteOf Examples.branchSite)
               Examples.liveCfg 5 "acme" "web" tt))
    (CreateComment "acme" "web" 42 (branchBody "alice" "feature-x") (Ok tt)).
Proof.
  apply (cleanup_comments_are_justified (Demo.remoteOf Examples.branchSite)
           Examples.liveCfg 5 "acme" "web" tt
           (CreateComment "acme" "web" 42 (branchBody "alice" "feature-x") (Ok tt))).
  - reflexivity.
  - vm_compute. tauto.
Defined.
